(** * Custom scoring of the RAG evaluation scripts

    Shallow embedding of the heuristic metrics, the evaluation loop, the
    aggregation block and the grade banding of
    [enhanced-rag-evaluation.py] and [ragas-evaluation.py].

    Conventions of the embedding:
    - a Python [str] is a [string]; a character is a code point below 256,
      with [str.lower] and [str.isspace] as Python defines them there;
    - a Python [int] is a [Z]; in the scoring, the loop and the reports a
      Python [float] is an exact rational [Q] (compared with [==]), so
      these statements are about the arithmetic the code writes down, free
      of rounding; the bounds on the aggregates read these rationals as
      real numbers [R];
    - where the value of an aggregate is at stake, the aggregation is
      embedded a second time over binary64 numbers (modules [F64], [Np64]
      and [Enhanced64]), with the rounding of every operation;
    - a [set] of words is a [gset string], a [dict] with string keys is a
      [gmap string _];
    - a computation that may raise is a value of [result]. *)

From Corelib Require Import PrimFloat.
From Corelib Require FloatOps SpecFloat.
From Stdlib Require Uint63.
From Stdlib Require Import ZArith QArith Qminmax Qreals Reals Lra Lqa Lia.
From Stdlib Require Import Ascii String List.
From stdpp Require Import gmap strings list fin_maps fin_sets.

Import ListNotations.
Local Open Scope string_scope.
Local Open Scope Z_scope.

(** ** Exceptions and fallible computations *)

Inductive exn : Type :=
| ZeroDivisionError
| KeyError (key : string).

Inductive result (A : Type) : Type :=
| Ok (a : A)
| Raise (e : exn).
Arguments Ok {A} a.
Arguments Raise {A} e.

#[global] Instance result_ret : MRet result := λ A a, Ok a.

#[global] Instance result_bind : MBind result := λ A B k c,
  match c with
  | Ok a => k a
  | Raise e => Raise e
  end.

Definition returns {A : Type} (c : result A) : Prop := ∃ a, c = Ok a.

(** ** Python primitives *)

Module Py.

(** [a / b] on numbers: true division, raising on a zero divisor. *)
Definition truediv (a b : Q) : result Q :=
  if Qeq_bool b 0 then Raise ZeroDivisionError else Ok (a / b)%Q.

(** [a <= b] and [a < b] on numbers. *)
Definition le (a b : Q) : bool := Qle_bool a b.
Definition lt (a b : Q) : bool := negb (Qle_bool b a).

Definition ge (a b : Q) : bool := Qle_bool b a.

(** [min(a, b)]: the first argument unless the second is smaller. *)
Definition min (a b : Q) : Q := if lt b a then b else a.

(** [max(a, b)]: the first argument unless the second is larger. *)
Definition max (a b : Q) : Q := if lt a b then b else a.

(** [len(s)] of a string, a list and a set. *)
Definition len (s : string) : Z := Z.of_nat (String.length s).
Definition len_list {A : Type} (l : list A) : Z := Z.of_nat (List.length l).
Definition len_set (s : gset string) : Z := Z.of_nat (size s).

(** Truth value of a string, a list and a set: non-empty. *)
Definition truthy (s : string) : bool :=
  match s with EmptyString => false | String _ _ => true end.
Definition truthy_list {A : Type} (l : list A) : bool :=
  match l with [] => false | _ :: _ => true end.
Definition truthy_set (s : gset string) : bool := negb (len_set s =? 0).

(** [c.lower()] on one code point below 256: A-Z and the accented
    capitals 0xC0-0xDE (0xD7, the multiplication sign, apart) move up
    by 32. *)
Definition lower_char (c : ascii) : ascii :=
  let n := N_of_ascii c in
  if ((65 <=? n) && (n <=? 90))%N then ascii_of_N (n + 32)
  else if ((192 <=? n) && (n <=? 222) && negb (n =? 215))%N
       then ascii_of_N (n + 32)
       else c.

(** [s.lower()] *)
Fixpoint lower (s : string) : string :=
  match s with
  | EmptyString => EmptyString
  | String c s' => String (lower_char c) (lower s')
  end.

(** [c.isspace()] on one code point below 256: tab to carriage return,
    the four separators 0x1C-0x1F, the space, NEL and the no-break
    space. *)
Definition isspace (c : ascii) : bool :=
  let n := N_of_ascii c in
  ((9 <=? n) && (n <=? 13) || (28 <=? n) && (n <=? 32)
   || (n =? 133) || (n =? 160))%N.

(** [s.split()] with no separator: the maximal runs of non-space
    characters, in order. [word] is the run read so far, reversed. *)
Definition flush (word : list ascii) (acc : list string) : list string :=
  match word with
  | [] => acc
  | _ :: _ => string_of_list_ascii (rev word) :: acc
  end.

Fixpoint split_from (word : list ascii) (s : string) : list string :=
  match s with
  | EmptyString => flush word []
  | String c s' =>
      if isspace c then flush word (split_from [] s')
      else split_from (c :: word) s'
  end.

Definition split (s : string) : list string := split_from [] s.

(** [sep.join(parts)] *)
Fixpoint join (sep : string) (parts : list string) : string :=
  match parts with
  | [] => EmptyString
  | [p] => p
  | p :: rest => p ++ sep ++ join sep rest
  end.

(** [sub in s]: [sub] occurs in [s] as a contiguous substring. *)
Fixpoint starts_with (sub s : string) : bool :=
  match sub, s with
  | EmptyString, _ => true
  | String _ _, EmptyString => false
  | String a sub', String b s' =>
      if Ascii.eqb a b then starts_with sub' s' else false
  end.

Fixpoint contains (sub s : string) : bool :=
  starts_with sub s
  || match s with
     | EmptyString => false
     | String _ s' => contains sub s'
     end.

(** [set(words)] *)
Definition set_of (words : list string) : gset string := list_to_set words.

End Py.

(** ** The RAG service

    One [POST /api/chat] either fails (the request or the decoding of the
    reply raises) or yields a status code, the decoded JSON object and the
    time the exchange took. The service is an oracle that the evaluation
    loop consults once per question, threading a state of the world. *)

Record body : Type := {
  body_answer : option string;
  body_sources : option (list (gmap string string))
}.

Inductive outcome : Type :=
| Failed
| Reply (status_code : Z) (data : body) (elapsed : Q).

(** A service that replays a fixed list of outcomes, one per request, and
    fails once the list is used up. *)
Definition scripted (question : string) (w : list outcome)
  : outcome * list outcome :=
  match w with
  | [] => (Failed, [])
  | o :: rest => (o, rest)
  end.

(** One entry of the question catalogue. *)
Record qa : Type := {
  qa_question : string;
  qa_ground_truth : string;
  qa_category : option string
}.

(** The four columns handed to the external metrics library. *)
Record ragas_data : Type := {
  rd_question : list string;
  rd_answer : list string;
  rd_contexts : list (list string);
  rd_ground_truth : list string
}.

(** [d.get(key, default)] and [d[key]] on a dictionary. *)
Definition dict_get {V : Type} (d : gmap string V) (key : string) (dflt : V) : V :=
  default dflt (d !! key).

Definition getitem {V : Type} (d : gmap string V) (key : string) : result V :=
  match d !! key with
  | Some v => Ok v
  | None => Raise (KeyError key)
  end.

(** ** numpy

    [np.mean] and [np.std] over real numbers, as numpy documents them:
    the sum over the count, and the square root of the mean of
    [abs(a - a.mean())**2] (no [ddof] is passed, so the divisor is the
    count). On the empty list numpy yields [nan]; the model is meant for
    non-empty lists only. This is the idealisation, free of rounding;
    [Np64] below is what numpy computes. *)

Module Np.

Definition sum (a : list R) : R := fold_right Rplus 0%R a.

Definition mean (a : list R) : R := (sum a / INR (List.length a))%R.

Definition std (a : list R) : R :=
  sqrt (mean (List.map (λ x, (Rabs (x - mean a) ^ 2)%R) a)).

End Np.

(** ** Binary64

    A Python [float] as a primitive binary64 number: IEEE 754 addition,
    subtraction, multiplication, division and square root, each rounded
    to nearest, ties to even. A decimal literal denotes the nearest
    double, as it does in Python. *)

Set Warnings "-inexact-float".

Module F64.

(** The double of an integer count. *)
Definition of_Z (n : Z) : float := PrimFloat.of_uint63 (Uint63.of_Z n).

(** The rational number that a finite double stands for. *)
Definition exact (x : float) : option Q :=
  match FloatOps.Prim2SF x with
  | SpecFloat.S754_zero _ => Some 0%Q
  | SpecFloat.S754_finite s m e =>
      let v := (inject_Z (Z.pos m) * 2 ^ e)%Q in
      Some (if s then (- v)%Q else v)
  | _ => None
  end.

(** [lo < x < hi] for the number that the double [x] stands for. *)
Definition strictly_between (lo hi : Q) (x : float) : Prop :=
  ∃ q, exact x = Some q ∧ (lo < q)%Q ∧ (q < hi)%Q.

End F64.

(** ** numpy in binary64

    [np.mean] and [np.std] on a list of Python floats, as numpy computes
    them on the [float64] array it makes of the list.

    [np.add.reduce] starts from the identity 0 and adds the result of
    [pairwise_sum] over the [n] items:
    - fewer than 8 items are added from the left, from [0.];
    - up to 128 items go through eight accumulators [r[0..7]], started
      with the first eight items; each round of the loop
      [for (i = 8; i < n - (n % 8); i += 8)] adds the next eight items,
      one to each accumulator; then
      [res = ((r[0] + r[1]) + (r[2] + r[3])) + ((r[4] + r[5]) + (r[6] + r[7]))]
      and the items left over are added to [res] from the left;
    - more than 128 items are split at [n2 = n / 2; n2 -= n2 % 8] and
      the sums of the two parts are added.

    [_mean] divides the sum by the count. [_var] computes the mean,
    [x = arr - arrmean], [x = x * x], and divides the sum of [x] by
    [max(n - ddof, 0)]; [_std] takes the square root. *)

Module Np64.

(** [res += a[i]] over the items of [a], from the left. *)
Definition accumulate (res : float) (a : list float) : float :=
  foldl PrimFloat.add res a.

(** [rounds] rounds of the loop over the eight accumulators [r]; yields
    the accumulators and the items not yet read. *)
Fixpoint unrolled_loop (rounds : nat) (r a : list float)
  : list float * list float :=
  match rounds with
  | O => (r, a)
  | S rounds =>
      unrolled_loop rounds (zip_with PrimFloat.add r (take 8 a)) (drop 8 a)
  end.

(** The branch [n <= PW_BLOCKSIZE] of [pairwise_sum], for [8 <= n]. *)
Definition unrolled (a : list float) : float :=
  let n := List.length a in
  let '(r, rest) := unrolled_loop (n / 8 - 1) (take 8 a) (drop 8 a) in
  let r (i : nat) : float := nth i r 0%float in
  accumulate (((r 0%nat + r 1%nat) + (r 2%nat + r 3%nat))
              + ((r 4%nat + r 5%nat) + (r 6%nat + r 7%nat)))%float rest.

(** [pairwise_sum]; the recursion halves the list, so a fuel of the
    length of the list is never used up ([pairwise_sum_unfold]). *)
Fixpoint pairwise_sum_rec (fuel : nat) (a : list float) : float :=
  match fuel with
  | O => accumulate 0%float a
  | S fuel =>
      let n := List.length a in
      if (n <? 8)%nat then accumulate 0%float a
      else if (n <=? 128)%nat then unrolled a
      else
        let n2 := (n / 2)%nat in
        let n2 := (n2 - n2 mod 8)%nat in
        (pairwise_sum_rec fuel (take n2 a)
         + pairwise_sum_rec fuel (drop n2 a))%float
  end.

Definition pairwise_sum (a : list float) : float :=
  pairwise_sum_rec (List.length a) a.

(** [np.add.reduce(a)] *)
Definition sum (a : list float) : float := (0 + pairwise_sum a)%float.

(** [np.mean(a)] *)
Definition mean (a : list float) : float :=
  (sum a / F64.of_Z (Z.of_nat (List.length a)))%float.

(** [np.var(a, ddof=ddof)] *)
Definition var (a : list float) (ddof : Z) : float :=
  let arrmean := mean a in
  let x := List.map (λ v, v - arrmean)%float a in
  let x := List.map (λ v, v * v)%float x in
  let rcount := Z.max (Z.of_nat (List.length a) - ddof) 0 in
  (sum x / F64.of_Z rcount)%float.

(** [np.std(a, ddof=ddof)] *)
Definition std (a : list float) (ddof : Z) : float :=
  PrimFloat.sqrt (var a ddof).

End Np64.

(** ** [EnhancedRAGEvaluator] *)

Module Enhanced.

(** The five blocks of [calculate_custom_metrics], one per metric, in
    the order of the source. *)

Definition response_completeness (answer : string) : result Q :=
  if Py.truthy answer
  then x ← Py.truediv (inject_Z (Py.len answer)) 200; mret (Py.min x 1)
  else mret 0%Q.

Definition context_utilization (contexts : list string) (answer : string)
  : result Q :=
  if Py.truthy_list contexts && Py.truthy answer then
    let context_words := Py.set_of (Py.split (Py.lower (Py.join " " contexts))) in
    let answer_words := Py.set_of (Py.split (Py.lower answer)) in
    if Py.truthy_set context_words
    then Py.truediv (inject_Z (Py.len_set (context_words ∩ answer_words)))
                    (inject_Z (Py.len_set context_words))
    else mret 0%Q
  else mret 0%Q.

Definition response_efficiency (response_time : Q) : result Q :=
  if Py.lt 0 response_time then
    if Py.le 2 response_time && Py.le response_time 8 then mret 1%Q
    else if Py.lt response_time 2 then Py.truediv response_time 2
    else x ← Py.truediv 8 response_time; mret (Py.max 0.1 x)
  else mret 0%Q.

Definition specific_terms : list string :=
  ["$"; "%"; "minutes"; "days"; "years"; "score"; "income"; "equity"].

Definition answer_specificity (answer : string) : result Q :=
  Py.truediv
    (inject_Z (Py.len_list
       (filter (λ term, Py.contains term (Py.lower answer) = true)
               specific_terms)))
    (inject_Z (Py.len_list specific_terms)).

Definition ground_truth_coverage (ground_truth answer : string) : result Q :=
  if Py.truthy ground_truth && Py.truthy answer then
    let gt_words := Py.set_of (Py.split (Py.lower ground_truth)) in
    let answer_words := Py.set_of (Py.split (Py.lower answer)) in
    Py.truediv (inject_Z (Py.len_set (gt_words ∩ answer_words)))
               (inject_Z (Py.len_set gt_words))
  else mret 0%Q.

Definition calculate_custom_metrics
    (question answer ground_truth : string) (contexts : list string)
    (response_time : Q) : result (gmap string Q) :=
  let metrics : gmap string Q := ∅ in
  v ← response_completeness answer;
  let metrics := <["response_completeness" := v]> metrics in
  v ← context_utilization contexts answer;
  let metrics := <["context_utilization" := v]> metrics in
  v ← response_efficiency response_time;
  let metrics := <["response_efficiency" := v]> metrics in
  v ← answer_specificity answer;
  let metrics := <["answer_specificity" := v]> metrics in
  v ← ground_truth_coverage ground_truth answer;
  let metrics := <["ground_truth_coverage" := v]> metrics in
  mret metrics.

(** *** The evaluation loop *)

Record rag_response : Type := {
  answer : string;
  contexts : list string;
  source_documents : list (gmap string string);
  response_time : Q
}.

Record detailed_result : Type := {
  dr_question : string;
  dr_category : string;
  dr_answer : string;
  dr_ground_truth : string;
  dr_contexts : list string;
  dr_source_count : Z;
  dr_response_time : Q;
  dr_custom_metrics : gmap string Q
}.

Definition failed_response : rag_response :=
  {| answer := ""; contexts := []; source_documents := []; response_time := 0 |}.

(** What [query_rag_pipeline] makes of the outcome of its request. *)
Definition response_of (o : outcome) : rag_response :=
  match o with
  | Reply 200 data elapsed =>
      {| answer := default "" (body_answer data);
         contexts := List.map (λ source, dict_get source "content" "")
                              (default [] (body_sources data));
         source_documents := default [] (body_sources data);
         response_time := elapsed |}
  | Reply _ _ _ => failed_response
  | Failed => failed_response
  end.

Section Loop.

Context {World : Type}.
Variable post : string → World → outcome * World.

Definition query_rag_pipeline (question : string) (w : World)
  : rag_response * World :=
  let '(o, w) := post question w in (response_of o, w).

(** The body of the [for] loop of [prepare_enhanced_dataset], with the
    two accumulators it appends to. An exception of the scoring
    leaves the loop and the function. *)
Fixpoint prepare_loop (questions : list qa) (data : ragas_data)
    (detailed_results : list detailed_result) (w : World)
  : result (ragas_data * list detailed_result * World) :=
  match questions with
  | [] => mret (data, detailed_results, w)
  | q :: rest =>
      let '(rag, w) := query_rag_pipeline (qa_question q) w in
      if negb (Py.truthy (answer rag))
      then prepare_loop rest data detailed_results w
      else
        custom_metrics ← calculate_custom_metrics
          (qa_question q) (answer rag) (qa_ground_truth q)
          (contexts rag) (response_time rag);
        let data :=
          {| rd_question := (rd_question data ++ [qa_question q])%list;
             rd_answer := (rd_answer data ++ [answer rag])%list;
             rd_contexts := (rd_contexts data ++
               [if Py.truthy_list (contexts rag) then contexts rag
                else ["No context retrieved"]])%list;
             rd_ground_truth :=
               (rd_ground_truth data ++ [qa_ground_truth q])%list |} in
        let detailed_results := (detailed_results ++
          [{| dr_question := qa_question q;
              dr_category := default "general" (qa_category q);
              dr_answer := answer rag;
              dr_ground_truth := qa_ground_truth q;
              dr_contexts := contexts rag;
              dr_source_count := Py.len_list (source_documents rag);
              dr_response_time := response_time rag;
              dr_custom_metrics := custom_metrics |}])%list in
        prepare_loop rest data detailed_results w
  end.

Definition prepare_enhanced_dataset (questions : list qa) (w : World)
  : result (ragas_data * list detailed_result * World) :=
  prepare_loop questions
    {| rd_question := []; rd_answer := []; rd_contexts := [];
       rd_ground_truth := [] |} [] w.

(** The responses a complete pass over [questions] receives, in order. *)
Fixpoint responses (questions : list qa) (w : World) : list rag_response :=
  match questions with
  | [] => []
  | q :: rest =>
      let '(rag, w) := query_rag_pipeline (qa_question q) w in
      rag :: responses rest w
  end.

End Loop.

(** *** Aggregation of the custom metrics in [run_enhanced_evaluation] *)

Definition metric_names : list string :=
  ["response_completeness"; "context_utilization"; "response_efficiency";
   "answer_specificity"; "ground_truth_coverage"].

(** [[result['custom_metrics'][metric_name] for result in detailed_results]] *)
Fixpoint metric_values (metric_name : string)
    (detailed_results : list detailed_result) : result (list R) :=
  match detailed_results with
  | [] => mret []
  | r :: rest =>
      v ← getitem (dr_custom_metrics r) metric_name;
      vs ← metric_values metric_name rest;
      mret (Q2R v :: vs)
  end.

Fixpoint aggregate (names : list string)
    (detailed_results : list detailed_result)
    (custom_results : gmap string R) : result (gmap string R) :=
  match names with
  | [] => mret custom_results
  | metric_name :: rest =>
      values ← metric_values metric_name detailed_results;
      let custom_results :=
        <["avg_" ++ metric_name := Np.mean values]> custom_results in
      let custom_results :=
        <["std_" ++ metric_name := Np.std values]> custom_results in
      aggregate rest detailed_results custom_results
  end.

Definition custom_results (detailed_results : list detailed_result)
  : result (gmap string R) :=
  aggregate metric_names detailed_results ∅.

(** [get_score_grade] *)
Definition get_score_grade (score : Q) : string :=
  if Py.ge score 0.9 then "A+"
  else if Py.ge score 0.8 then "A"
  else if Py.ge score 0.7 then "B"
  else if Py.ge score 0.6 then "C"
  else if Py.ge score 0.5 then "D"
  else "F".

End Enhanced.

(** ** The aggregation in binary64

    The aggregation block of [run_enhanced_evaluation] on detailed
    results whose metrics are doubles. The block reads nothing of a
    detailed result but its [custom_metrics]. *)

Module Enhanced64.

Record detailed_result : Type := {
  dr_custom_metrics : gmap string float
}.

(** [[result['custom_metrics'][metric_name] for result in detailed_results]] *)
Fixpoint metric_values (metric_name : string)
    (detailed_results : list detailed_result) : result (list float) :=
  match detailed_results with
  | [] => mret []
  | r :: rest =>
      v ← getitem (dr_custom_metrics r) metric_name;
      vs ← metric_values metric_name rest;
      mret (v :: vs)
  end.

(** [np.std(values)] passes no [ddof]: numpy's default is 0. *)
Fixpoint aggregate (names : list string)
    (detailed_results : list detailed_result)
    (custom_results : gmap string float) : result (gmap string float) :=
  match names with
  | [] => mret custom_results
  | metric_name :: rest =>
      values ← metric_values metric_name detailed_results;
      let custom_results :=
        <["avg_" ++ metric_name := Np64.mean values]> custom_results in
      let custom_results :=
        <["std_" ++ metric_name := Np64.std values 0]> custom_results in
      aggregate rest detailed_results custom_results
  end.

Definition custom_results (detailed_results : list detailed_result)
  : result (gmap string float) :=
  aggregate Enhanced.metric_names detailed_results ∅.

End Enhanced64.

(** ** [RAGASEvaluator] *)

Module Ragas.

Record rag_response : Type := {
  answer : string;
  contexts : list string;
  source_documents : list (gmap string string)
}.

Definition failed_response : rag_response :=
  {| answer := ""; contexts := []; source_documents := [] |}.

Definition response_of (o : outcome) : rag_response :=
  match o with
  | Reply 200 data _ =>
      {| answer := default "" (body_answer data);
         contexts := List.map (λ source, dict_get source "content" "")
                              (default [] (body_sources data));
         source_documents := default [] (body_sources data) |}
  | Reply _ _ _ => failed_response
  | Failed => failed_response
  end.

Section Loop.

Context {World : Type}.
Variable post : string → World → outcome * World.

Definition query_rag_pipeline (question : string) (w : World)
  : rag_response * World :=
  let '(o, w) := post question w in (response_of o, w).

Fixpoint prepare_loop (questions : list qa) (data : ragas_data) (w : World)
  : ragas_data * World :=
  match questions with
  | [] => (data, w)
  | q :: rest =>
      let '(rag, w) := query_rag_pipeline (qa_question q) w in
      if negb (Py.truthy (answer rag))
      then prepare_loop rest data w
      else
        let data :=
          {| rd_question := (rd_question data ++ [qa_question q])%list;
             rd_answer := (rd_answer data ++ [answer rag])%list;
             rd_contexts := (rd_contexts data ++
               [if Py.truthy_list (contexts rag) then contexts rag
                else ["No context retrieved"]])%list;
             rd_ground_truth :=
               (rd_ground_truth data ++ [qa_ground_truth q])%list |} in
        prepare_loop rest data w
  end.

Definition prepare_ragas_dataset (questions : list qa) (w : World)
  : ragas_data * World :=
  prepare_loop questions
    {| rd_question := []; rd_answer := []; rd_contexts := [];
       rd_ground_truth := [] |} w.

Fixpoint responses (questions : list qa) (w : World) : list rag_response :=
  match questions with
  | [] => []
  | q :: rest =>
      let '(rag, w) := query_rag_pipeline (qa_question q) w in
      rag :: responses rest w
  end.

End Loop.

(** [get_overall_grade] *)
Definition get_overall_grade (score : Q) : string :=
  if Py.ge score 0.9 then "A+"
  else if Py.ge score 0.8 then "A"
  else if Py.ge score 0.7 then "B"
  else if Py.ge score 0.6 then "C"
  else if Py.ge score 0.5 then "D"
  else "F".

End Ragas.

(** ** The question catalogues *)

Module Catalogue.

(** [EnhancedRAGEvaluator.get_comprehensive_test_questions] *)
Definition get_comprehensive_test_questions : list qa :=
  [ {| qa_question := "What is the maximum credit limit for the Aven HELOC card?";
       qa_ground_truth :=
         "The maximum credit limit is $250,000, subject to your home equity and creditworthiness.";
       qa_category := Some "product_limits" |};
    {| qa_question := "What are the interest rates for Aven?";
       qa_ground_truth :=
         "Variable interest rates range from 7.99% to 15.49%, with a maximum of 18% during the life of the account.";
       qa_category := Some "rates_fees" |};
    {| qa_question := "Is there an annual fee for the Aven card?";
       qa_ground_truth :=
         "No, there is no annual fee for the Aven HELOC Credit Card.";
       qa_category := Some "rates_fees" |};
    {| qa_question := "How much cashback do I earn with Aven?";
       qa_ground_truth :=
         "You earn 2% cashback on all purchases and 7% cashback on travel booked through Aven's travel portal.";
       qa_category := Some "rewards" |};
    {| qa_question := "How fast can I get approved for an Aven card?";
       qa_ground_truth :=
         "Approval can be as fast as 5 minutes for qualified applicants.";
       qa_category := Some "application_process" |};
    {| qa_question := "What bank issues the Aven card?";
       qa_ground_truth :=
         "The Aven Visa Credit Card is issued by Coastal Community Bank.";
       qa_category := Some "product_details" |};
    {| qa_question := "Is there an autopay discount available?";
       qa_ground_truth :=
         "Yes, there is a 0.25% autopay discount available.";
       qa_category := Some "rates_fees" |};
    {| qa_question := "Can I transfer balances to my Aven card?";
       qa_ground_truth :=
         "Yes, balance transfers are available with a 2.5% fee.";
       qa_category := Some "features" |};
    {| qa_question := "What income do I need to qualify for Aven?";
       qa_ground_truth :=
         "You typically need stable income of $50,000 or more annually.";
       qa_category := Some "eligibility" |};
    {| qa_question := "How much home equity do I need for Aven?";
       qa_ground_truth :=
         "You typically need at least $250,000 in home equity after existing mortgages and liens.";
       qa_category := Some "eligibility" |};
    {| qa_question := "Does Aven make any money from Debt Protection?";
       qa_ground_truth :=
         "No, Aven does not make any money from this product. We offer it solely to provide our customers with peace of mind when using their home equity. The costs charged are passed directly through from Securian Financial.";
       qa_category := Some "protection_services" |};
    {| qa_question := "What credit score do I need for Aven?";
       qa_ground_truth :=
         "Typically a credit score of 600 or higher is required, though other factors are also considered.";
       qa_category := Some "eligibility" |};
    {| qa_question := "How does Aven's HELOC card compare to traditional credit cards?";
       qa_ground_truth :=
         "Aven's HELOC card allows you to access your home equity with higher credit limits up to $250,000, lower interest rates from 7.99%-15.49%, and 2% cashback on all purchases, unlike traditional credit cards that typically have lower limits and higher rates.";
       qa_category := Some "comparison" |};
    {| qa_question := "What happens if I can't make payments on my Aven card?";
       qa_ground_truth :=
         "Since the Aven card is secured by your home equity, it's important to make payments on time. Aven offers debt protection options and customer support to help manage payments, but failure to pay could ultimately affect your home.";
       qa_category := Some "risk_management" |};
    {| qa_question := "How do I increase my credit limit with Aven?";
       qa_ground_truth :=
         "Credit limit increases depend on your available home equity, creditworthiness, and income. You can contact Aven customer support to discuss limit increase options based on changes in your home value or financial situation.";
       qa_category := Some "account_management" |} ].

(** [RAGASEvaluator.get_evaluation_questions] *)
Definition get_evaluation_questions : list qa :=
  [ {| qa_question := "What is the maximum credit limit for the Aven HELOC card?";
       qa_ground_truth :=
         "The maximum credit limit is $250,000, subject to your home equity and creditworthiness.";
       qa_category := None |};
    {| qa_question := "What are the interest rates for Aven?";
       qa_ground_truth :=
         "Variable interest rates range from 7.99% to 15.49%, with a maximum of 18% during the life of the account.";
       qa_category := None |};
    {| qa_question := "Is there an annual fee for the Aven card?";
       qa_ground_truth :=
         "No, there is no annual fee for the Aven HELOC Credit Card.";
       qa_category := None |};
    {| qa_question := "How much cashback do I earn with Aven?";
       qa_ground_truth :=
         "You earn 2% cashback on all purchases and 7% cashback on travel booked through Aven's travel portal.";
       qa_category := None |};
    {| qa_question := "Does Aven make any money from Debt Protection?";
       qa_ground_truth :=
         "No, Aven does not make any money from this product. We offer it solely to provide our customers with peace of mind when using their home equity. The costs charged are passed directly through from Securian Financial.";
       qa_category := None |};
    {| qa_question := "How fast can I get approved for an Aven card?";
       qa_ground_truth :=
         "Approval can be as fast as 5 minutes for qualified applicants.";
       qa_category := None |};
    {| qa_question := "What credit score do I need for Aven?";
       qa_ground_truth :=
         "Typically a credit score of 600 or higher is required, though other factors are also considered.";
       qa_category := None |};
    {| qa_question := "What bank issues the Aven card?";
       qa_ground_truth :=
         "The Aven Visa Credit Card is issued by Coastal Community Bank.";
       qa_category := None |};
    {| qa_question := "Is there an autopay discount available?";
       qa_ground_truth :=
         "Yes, there is a 0.25% autopay discount available.";
       qa_category := None |};
    {| qa_question := "Can I transfer balances to my Aven card?";
       qa_ground_truth :=
         "Yes, balance transfers are available with a 2.5% fee.";
       qa_category := None |};
    {| qa_question := "What income do I need to qualify for Aven?";
       qa_ground_truth :=
         "You typically need stable income of $50,000 or more annually.";
       qa_category := None |};
    {| qa_question := "How much home equity do I need for Aven?";
       qa_ground_truth :=
         "You typically need at least $250,000 in home equity after existing mortgages and liens.";
       qa_category := None |} ].

End Catalogue.

(** ** The report of the second script *)

Module RagasReport.

(** [get_score_interpretation] *)
Definition get_score_interpretation (metric : string) (score : Q) : string :=
  if Py.ge score 0.8 then "Excellent"
  else if Py.ge score 0.7 then "Good"
  else if Py.ge score 0.6 then "Fair"
  else if Py.ge score 0.5 then "Poor"
  else "Very Poor".

(** [d[key] = v] on a dictionary kept in insertion order: the value of a
    key already present is replaced in place, a new key goes last. *)
Fixpoint dict_set (d : list (string * Q)) (key : string) (v : Q)
  : list (string * Q) :=
  match d with
  | [] => [(key, v)]
  | (k, x) :: rest =>
      if String.eqb k key then (k, v) :: rest
      else (k, x) :: dict_set rest key v
  end.

(** The loop of [generate_ragas_report] over [self.metrics], given by
    the names of the metrics, that collects the scores present in
    [results]. *)
Definition metrics_scores (metrics : list string) (results : gmap string Q)
  : list (string * Q) :=
  foldl (λ scores metric_name,
           match results !! metric_name with
           | Some score => dict_set scores metric_name score
           | None => scores
           end) [] metrics.

(** [sum(values)]: from 0, adding from the left. *)
Definition sum (values : list Q) : Q := foldl Qplus 0%Q values.

(** How [generate_ragas_report] ends, up to the point where it hands its
    data to [json.dump]: at once on empty results; on the
    read of a variable never assigned; on an exception of a division; or
    with the scores, the overall score and the grade it saves. *)
Inductive report : Type :=
| No_results
| Unbound_local (name : string)
| Raised (e : exn)
| Saved (ragas_scores : list (string * Q)) (overall_score : Q) (grade : string).

(** Truth value of a dictionary: non-empty. *)
Definition truthy_dict {V : Type} (d : gmap string V) : bool :=
  negb (Z.of_nat (size d) =? 0).

Definition generate_ragas_report (metrics : list string)
    (results : gmap string Q) : report :=
  if negb (truthy_dict results) then No_results
  else
    let scores := metrics_scores metrics results in
    if Py.truthy_list scores then
      match Py.truediv (sum scores.*2) (inject_Z (Py.len_list scores)) with
      | Ok overall_score =>
          Saved scores overall_score (Ragas.get_overall_grade overall_score)
      | Raise e => Raised e
      end
    else Unbound_local "overall_score".

End RagasReport.

(** ** The analysis and the report of the enhanced script *)

Module EnhancedReport.

(** The grouping loop of [run_enhanced_evaluation]. *)
Definition category_analysis (detailed_results : list Enhanced.detailed_result)
  : gmap string (list Enhanced.detailed_result) :=
  foldl (λ analysis result,
           let category := Enhanced.dr_category result in
           let analysis :=
             match analysis !! category with
             | None => <[category := []]> analysis
             | Some _ => analysis
             end in
           alter (λ results, (results ++ [result])%list) category analysis)
        ∅ detailed_results.

(** [np.mean(list(r['custom_metrics'].values()))]; the order in which the
    values are listed has no bearing on a sum of real numbers. *)
Definition custom_score (r : Enhanced.detailed_result) : R :=
  Np.mean (List.map Q2R (map_to_list (Enhanced.dr_custom_metrics r)).*2).

Record category_score : Type := {
  count : Z;
  avg_custom_score : R;
  avg_response_time : R
}.

Definition score_category (results : list Enhanced.detailed_result)
  : category_score :=
  {| count := Py.len_list results;
     avg_custom_score := Np.mean (List.map custom_score results);
     avg_response_time :=
       Np.mean (List.map (λ r, Q2R (Enhanced.dr_response_time r)) results) |}.

Definition category_scores (detailed_results : list Enhanced.detailed_result)
  : gmap string category_score :=
  score_category <$> category_analysis detailed_results.

(** What [run_enhanced_evaluation] returns, the time stamp apart. *)
Record evaluation : Type := {
  ragas_results : gmap string R;
  custom_metrics : gmap string R;
  category_analysis_of : gmap string category_score;
  detailed_results_of : list Enhanced.detailed_result
}.

(** [run_enhanced_evaluation], given what the external [evaluate]
    yields: [None] when it raises. Any exception inside the function is
    caught and turned into the result [None]. *)
Definition run_enhanced_evaluation (evaluate : option (gmap string R))
    (detailed_results : list Enhanced.detailed_result) : option evaluation :=
  match evaluate with
  | None => None
  | Some ragas =>
      match Enhanced.custom_results detailed_results with
      | Ok custom =>
          Some {| ragas_results := ragas;
                  custom_metrics := custom;
                  category_analysis_of := category_scores detailed_results;
                  detailed_results_of := detailed_results |}
      | Raise _ => None
      end
  end.

(** The scores of [generate_comprehensive_report]. [metrics] are the
    names of [self.metrics]. *)
Definition ragas_scores (metrics : list string) (ragas : gmap string R)
  : gmap string R :=
  foldl (λ scores metric_name,
           match ragas !! metric_name with
           | Some score => <[metric_name := score]> scores
           | None => scores
           end) ∅ metrics.

(** The loop over the items of [custom_metrics]: the sum and the number
    of the entries whose key starts with ["avg_"]. The order in which a
    dictionary lists its items has no bearing on these two totals. *)
Definition custom_totals (custom : gmap string R) : R * Z :=
  map_fold (λ metric value totals,
              if Py.starts_with "avg_" metric
              then ((totals.1 + value)%R, totals.2 + 1)
              else totals)
           (0%R, 0) custom.

Record overall_scores : Type := {
  ragas_overall : R;
  custom_overall : R;
  combined_overall : R
}.

Definition overall (metrics : list string) (results : evaluation)
  : overall_scores :=
  let scores := ragas_scores metrics (ragas_results results) in
  let ragas_overall :=
    if RagasReport.truthy_dict scores
    then Np.mean (map_to_list scores).*2 else 0%R in
  let totals := custom_totals (custom_metrics results) in
  let custom_overall :=
    if 0 <? totals.2 then (totals.1 / IZR totals.2)%R else 0%R in
  {| ragas_overall := ragas_overall;
     custom_overall := custom_overall;
     combined_overall := ((ragas_overall + custom_overall) / 2)%R |}.

End EnhancedReport.

(** ** A small run

    Three catalogue entries and the outcomes of their three requests: an
    answered one, a failed one (whose ground truth is blank) and a reply
    with an empty answer. *)

Definition sample_questions : list qa :=
  [ {| qa_question := "How much can I borrow?";
       qa_ground_truth := "You can borrow up to $250,000.";
       qa_category := Some "product_features" |};
    {| qa_question := "Is there an annual fee?";
       qa_ground_truth := "   ";
       qa_category := None |};
    {| qa_question := "How fast is approval?";
       qa_ground_truth := "As fast as 15 minutes.";
       qa_category := Some "application_process" |} ].

Definition sample_world : list outcome :=
  [ Reply 200
      {| body_answer := Some "Up to $250,000 of your home equity.";
         body_sources := Some [ {[ "content" := "Aven offers up to $250,000" ]} ] |}
      3.5;
    Failed;
    Reply 200 {| body_answer := Some ""; body_sources := None |} 0.4 ].

(** Three detailed results whose five metrics all have one value each:
    0.2, 0.4 and 0.6. *)
Definition sample_result (v : Q) : Enhanced.detailed_result :=
  {| Enhanced.dr_question := "How much can I borrow?";
     Enhanced.dr_category := "general";
     Enhanced.dr_answer := "Up to $250,000 of your home equity.";
     Enhanced.dr_ground_truth := "You can borrow up to $250,000.";
     Enhanced.dr_contexts := ["Aven offers up to $250,000"];
     Enhanced.dr_source_count := 1;
     Enhanced.dr_response_time := 3.5;
     Enhanced.dr_custom_metrics :=
       <["ground_truth_coverage" := v]>
       (<["answer_specificity" := v]>
        (<["response_efficiency" := v]>
         (<["context_utilization" := v]>
          (<["response_completeness" := v]> ∅)))) |}.

Definition sample_detailed : list Enhanced.detailed_result :=
  [sample_result 0.2; sample_result 0.4; sample_result 0.6].

(** The same three detailed results with their metrics as doubles. *)
Definition sample_result64 (v : float) : Enhanced64.detailed_result :=
  {| Enhanced64.dr_custom_metrics :=
       <["ground_truth_coverage" := v]>
       (<["answer_specificity" := v]>
        (<["response_efficiency" := v]>
         (<["context_utilization" := v]>
          (<["response_completeness" := v]> ∅)))) |}.

Definition sample_detailed64 : list Enhanced64.detailed_result :=
  [sample_result64 0.2; sample_result64 0.4; sample_result64 0.6].

(** A detailed result that holds one metric only. *)
Definition partial_result : Enhanced.detailed_result :=
  {| Enhanced.dr_question := "How much can I borrow?";
     Enhanced.dr_category := "general";
     Enhanced.dr_answer := "Up to $250,000 of your home equity.";
     Enhanced.dr_ground_truth := "You can borrow up to $250,000.";
     Enhanced.dr_contexts := [];
     Enhanced.dr_source_count := 0;
     Enhanced.dr_response_time := 3.5;
     Enhanced.dr_custom_metrics := {[ "response_completeness" := 0.175%Q ]} |}.

(** ** The vocabulary of the specification *)

Module Spec.

(** The distinct lowercased whitespace tokens of a string. *)
Definition distinct_lowercased_words (s : string) : gset string :=
  list_to_set (Py.split (Py.lower s)).

(** [sub] occurs in [s] as a substring. *)
Definition is_substring (sub s : string) : Prop :=
  ∃ pre post, s = pre ++ sub ++ post.

(** Arithmetic mean of a list of real numbers. *)
Definition total (xs : list R) : R := fold_right Rplus 0%R xs.


(** An answer that is not the empty string. *)
Definition nonempty (a : string) : Prop := a ≠ "".

#[global] Instance nonempty_dec (a : string) : Decision (nonempty a).
Proof. unfold nonempty. apply _. Defined.

(** The six grade bands, by inclusive lower threshold. *)
Inductive band (score : Q) : string → Prop :=
| band_A_plus : (0.9 <= score)%Q → band score "A+"
| band_A : (0.8 <= score < 0.9)%Q → band score "A"
| band_B : (0.7 <= score < 0.8)%Q → band score "B"
| band_C : (0.6 <= score < 0.7)%Q → band score "C"
| band_D : (0.5 <= score < 0.6)%Q → band score "D"
| band_F : (score < 0.5)%Q → band score "F".

(** The quotient both overlap metrics compute: the share of [words] that
    is also in [other]. *)
Definition overlap_ratio (words other : gset string) : Q :=
  (inject_Z (Z.of_nat (size (words ∩ other))) / inject_Z (Z.of_nat (size words)))%Q.

(** [found] lists, without repetition, the fixed terms that occur in the
    lowercased answer. *)
Definition occurring_terms (answer : string) (found : list string) : Prop :=
  NoDup found
  ∧ ∀ term, term ∈ found
            ↔ term ∈ Enhanced.specific_terms
              ∧ is_substring term (Py.lower answer).

(** A string that holds nothing but white space. *)
Fixpoint blank (s : string) : bool :=
  match s with
  | EmptyString => true
  | String c s' => Py.isspace c && blank s'
  end.

(** A detailed result is well formed when its metrics are the five. *)
Definition well_formed (r : Enhanced.detailed_result) : Prop :=
  dom (Enhanced.dr_custom_metrics r) = list_to_set Enhanced.metric_names.

(** [values] are the values of one metric across the items, in order. *)
Definition values_of (metric_name : string)
    (detailed : list Enhanced.detailed_result) (values : list R) : Prop :=
  Forall2 (λ r v, Q2R <$> Enhanced.dr_custom_metrics r !! metric_name = Some v)
          detailed values.

(** The contexts column of the dataset for one item: its contexts, or a
    placeholder when there are none. *)
Definition dataset_contexts (contexts : list string) : list string :=
  if Py.truthy_list contexts then contexts else ["No context retrieved"].

(** The dataset and the detailed results describe the same items, row by
    row. *)
Definition aligned (data : ragas_data)
    (detailed : list Enhanced.detailed_result) : Prop :=
  rd_question data = List.map Enhanced.dr_question detailed
  ∧ rd_answer data = List.map Enhanced.dr_answer detailed
  ∧ rd_contexts data
    = List.map (λ r, dataset_contexts (Enhanced.dr_contexts r)) detailed
  ∧ rd_ground_truth data = List.map Enhanced.dr_ground_truth detailed.

(** A detailed result carries the score of its own fields, and counts one
    source per context. *)
Definition scored (r : Enhanced.detailed_result) : Prop :=
  Enhanced.calculate_custom_metrics
    (Enhanced.dr_question r) (Enhanced.dr_answer r)
    (Enhanced.dr_ground_truth r) (Enhanced.dr_contexts r)
    (Enhanced.dr_response_time r)
  = Ok (Enhanced.dr_custom_metrics r)
  ∧ Enhanced.dr_source_count r = Py.len_list (Enhanced.dr_contexts r).

(** The row of a detailed result that a catalogue entry gives rise to. *)
Definition entry_of (r : Enhanced.detailed_result) : string * string * string :=
  (Enhanced.dr_question r, Enhanced.dr_ground_truth r, Enhanced.dr_category r).

Definition entry_of_qa (q : qa) : string * string * string :=
  (qa_question q, qa_ground_truth q, default "general" (qa_category q)).

(** A ground truth on which the scoring of an answer does not raise. *)
Definition scorable (ground_truth : string) : Prop :=
  ground_truth = "" ∨ blank ground_truth = false.

(** The order of the six grades, and the wording that goes with each. *)
Definition grade_rank (grade : string) : nat :=
  if String.eqb grade "A+" then 5
  else if String.eqb grade "A" then 4
  else if String.eqb grade "B" then 3
  else if String.eqb grade "C" then 2
  else if String.eqb grade "D" then 1
  else 0.

Definition wording_of_grade (grade : string) : string :=
  if String.eqb grade "A+" then "Excellent"
  else if String.eqb grade "A" then "Excellent"
  else if String.eqb grade "B" then "Good"
  else if String.eqb grade "C" then "Fair"
  else if String.eqb grade "D" then "Poor"
  else "Very Poor".


(** The sum of the counts of all categories. *)
Definition total_count (scores : gmap string EnhancedReport.category_score) : Z :=
  map_fold (λ _ score total, EnhancedReport.count score + total) 0 scores.

(** Some item lacks the metric. *)
Definition lacks (metric_name : string)
    (detailed : list Enhanced.detailed_result) : Prop :=
  Exists (λ r, Enhanced.dr_custom_metrics r !! metric_name = None) detailed.

(** In binary64: the mean is the sum over the count, and the standard
    deviation the square root of the sum of the squared deviations from
    the mean over a divisor, which is the count for the population and
    one less for a sample; every operation rounds, and the sums are
    numpy's. *)
Definition mean64 (xs : list float) : float :=
  (Np64.sum xs / F64.of_Z (Z.of_nat (List.length xs)))%float.

Definition squared_deviations64 (xs : list float) : float :=
  Np64.sum (List.map (λ x, (x - mean64 xs) * (x - mean64 xs))%float xs).

Definition population_std64 (xs : list float) : float :=
  PrimFloat.sqrt
    (squared_deviations64 xs / F64.of_Z (Z.of_nat (List.length xs)))%float.

Definition sample_std64 (xs : list float) : float :=
  PrimFloat.sqrt
    (squared_deviations64 xs / F64.of_Z (Z.of_nat (List.length xs - 1)))%float.

(** A detailed result in binary64 holds exactly the five metrics. *)
Definition well_formed64 (r : Enhanced64.detailed_result) : Prop :=
  dom (Enhanced64.dr_custom_metrics r) = list_to_set Enhanced.metric_names.

(** [values] are the values of one metric across the items, in order. *)
Definition values64_of (metric_name : string)
    (detailed : list Enhanced64.detailed_result) (values : list float) : Prop :=
  Forall2 (λ r v, Enhanced64.dr_custom_metrics r !! metric_name = Some v)
          detailed values.

End Spec.

(** ** Facts about the Python primitives *)

Section PyFacts.

Lemma truediv_nonzero (a b : Q) :
  ¬ (b == 0)%Q → Py.truediv a b = Ok (a / b)%Q.
Proof.
  intros Hb. unfold Py.truediv.
  destruct (Qeq_bool b 0) eqn:E; [|reflexivity].
  apply Qeq_bool_iff in E. contradiction.
Qed.

Lemma truediv_zero (a b : Q) :
  (b == 0)%Q → Py.truediv a b = Raise ZeroDivisionError.
Proof.
  intros Hb. unfold Py.truediv.
  apply Qeq_bool_iff in Hb. now rewrite Hb.
Qed.

Lemma lt_true (a b : Q) : Py.lt a b = true ↔ (a < b)%Q.
Proof.
  unfold Py.lt. rewrite negb_true_iff.
  destruct (Qle_bool b a) eqn:E.
  - apply Qle_bool_iff in E. split; [discriminate|].
    intros H. exfalso. apply (Qlt_not_le _ _ H E).
  - split; [intros _|reflexivity].
    apply Qnot_le_lt. intros H. apply Qle_bool_iff in H. congruence.
Qed.

Lemma lt_false (a b : Q) : Py.lt a b = false ↔ (b <= a)%Q.
Proof.
  unfold Py.lt. rewrite negb_false_iff. apply Qle_bool_iff.
Qed.

Lemma le_true (a b : Q) : Py.le a b = true ↔ (a <= b)%Q.
Proof. apply Qle_bool_iff. Qed.

Lemma le_false (a b : Q) : Py.le a b = false ↔ (b < a)%Q.
Proof.
  unfold Py.le. split; intros H.
  - apply Qnot_le_lt. intros H'. apply Qle_bool_iff in H'. congruence.
  - destruct (Qle_bool a b) eqn:E; [|reflexivity].
    apply Qle_bool_iff in E. exfalso. apply (Qlt_not_le _ _ H E).
Qed.

Lemma ge_true (a b : Q) : Py.ge a b = true ↔ (b <= a)%Q.
Proof. apply Qle_bool_iff. Qed.

Lemma ge_false (a b : Q) : Py.ge a b = false ↔ (a < b)%Q.
Proof. apply le_false. Qed.

Lemma min_Qmin (a b : Q) : (Py.min a b == Qmin a b)%Q.
Proof.
  unfold Py.min. destruct (Py.lt b a) eqn:E.
  - apply lt_true in E. symmetry. apply Q.min_r. now apply Qlt_le_weak.
  - apply lt_false in E. symmetry. now apply Q.min_l.
Qed.

Lemma max_Qmax (a b : Q) : (Py.max a b == Qmax a b)%Q.
Proof.
  unfold Py.max. destruct (Py.lt a b) eqn:E.
  - apply lt_true in E. symmetry. apply Q.max_r. now apply Qlt_le_weak.
  - apply lt_false in E. symmetry. now apply Q.max_l.
Qed.

Lemma len_nonneg (s : string) : 0 ≤ Py.len s.
Proof. unfold Py.len. lia. Qed.

Lemma truthy_true (s : string) : Py.truthy s = true ↔ s ≠ "".
Proof. destruct s; simpl; split; congruence. Qed.

Lemma truthy_false (s : string) : Py.truthy s = false ↔ s = "".
Proof. destruct s; simpl; split; congruence. Qed.

Lemma truthy_list_true {A : Type} (l : list A) :
  Py.truthy_list l = true ↔ l ≠ [].
Proof. destruct l; simpl; split; congruence. Qed.

Lemma truthy_list_false {A : Type} (l : list A) :
  Py.truthy_list l = false ↔ l = [].
Proof. destruct l; simpl; split; congruence. Qed.

(** The primitives on literal strings. *)

Example lower_example : Py.lower "Up To $250,000 (APR)" = "up to $250,000 (apr)".
Proof. reflexivity. Qed.

Example split_example :
  Py.split ("  Up to" ++ String (ascii_of_nat 9) "$250,000 "
            ++ String (ascii_of_nat 10) "now")
  = ["Up"; "to"; "$250,000"; "now"].
Proof. reflexivity. Qed.

Example join_example : Py.join " " ["Aven card"; ""; "home equity"]
                       = "Aven card  home equity".
Proof. reflexivity. Qed.

Example contains_example :
  Py.contains "score" "a 650 score" = true
  ∧ Py.contains "years" "a 650 score" = false
  ∧ Py.contains "" "" = true.
Proof. repeat split; reflexivity. Qed.

(** Lowercasing moves no character into or out of the white space. *)
Lemma isspace_lower_char (c : ascii) :
  Py.isspace (Py.lower_char c) = Py.isspace c.
Proof. destruct c as [[] [] [] [] [] [] [] []]; reflexivity. Qed.

Lemma blank_lower (s : string) : Spec.blank (Py.lower s) = Spec.blank s.
Proof.
  induction s as [|c s IH]; [reflexivity|].
  cbn [Py.lower Spec.blank]. now rewrite isspace_lower_char, IH.
Qed.

Lemma split_from_word (s : string) :
  ∀ (c : ascii) (word : list ascii), Py.split_from (c :: word) s ≠ [].
Proof.
  induction s as [|d s IH]; intros c word; cbn [Py.split_from].
  - discriminate.
  - destruct (Py.isspace d); [discriminate|apply IH].
Qed.

(** [split] yields no token exactly on the blank strings. *)
Lemma split_nil_blank (s : string) : Py.split s = [] ↔ Spec.blank s = true.
Proof.
  unfold Py.split. induction s as [|c s IH]; cbn [Py.split_from Spec.blank].
  - split; reflexivity.
  - destruct (Py.isspace c); cbn [Py.flush andb].
    + exact IH.
    + split; [intros H; now apply split_from_word in H|discriminate].
Qed.

Lemma words_empty_blank (s : string) :
  Spec.distinct_lowercased_words s = ∅ ↔ Spec.blank s = true.
Proof.
  unfold Spec.distinct_lowercased_words.
  rewrite <- blank_lower, <- split_nil_blank. split.
  - destruct (Py.split (Py.lower s)) as [|word rest]; [reflexivity|].
    intros H. exfalso.
    assert (word ∈ (∅ : gset string)) as Hin
      by (rewrite <- H; apply elem_of_list_to_set; constructor).
    now apply not_elem_of_empty in Hin.
  - now intros ->.
Qed.

End PyFacts.

(** ** The length heuristic *)

Section Completeness.

Lemma response_completeness_nonempty (answer : string) :
  answer ≠ "" →
  Enhanced.response_completeness answer
  = Ok (Py.min (inject_Z (Py.len answer) / 200) 1).
Proof.
  intros Hne. unfold Enhanced.response_completeness.
  apply truthy_true in Hne. rewrite Hne.
  rewrite truediv_nonzero by discriminate. reflexivity.
Qed.

Lemma ratio_200 (n : Z) : (inject_Z n / 200 == n # 200)%Q.
Proof. unfold Qeq, Qdiv, Qmult, Qinv, inject_Z. simpl. lia. Qed.

Lemma response_completeness_value (answer : string) :
  ∃ v : Q,
    Enhanced.response_completeness answer = Ok v
    ∧ (v == Qmin (inject_Z (Py.len answer) / 200) 1)%Q.
Proof.
  destruct (decide (answer = "")) as [->|Hne].
  - exists 0%Q. split; reflexivity.
  - exists (Py.min (inject_Z (Py.len answer) / 200) 1).
    split; [now apply response_completeness_nonempty|apply min_Qmin].
Qed.

Lemma response_completeness_range (answer : string) (v : Q) :
  Enhanced.response_completeness answer = Ok v → (0 <= v <= 1)%Q.
Proof.
  intros Hv.
  destruct (response_completeness_value answer) as (v' & Hv' & Hmin).
  rewrite Hv in Hv'. injection Hv' as <-. rewrite Hmin. split.
  - apply Q.min_glb; [|discriminate].
    rewrite ratio_200. pose proof (len_nonneg answer).
    unfold Qle. simpl. lia.
  - apply Q.le_min_r.
Qed.

(** C9: [response_completeness] always returns; its value is
    [min(len(answer)/200, 1.0)] with the length counted in characters;
    it is 0.0 for the empty answer, 1.0 for every answer of at least 200
    characters and 0.5 for every answer of exactly 100 characters. *)
Theorem response_completeness_spec (answer : string) :
  ∃ v : Q,
    Enhanced.response_completeness answer = Ok v
    ∧ (v == Qmin (inject_Z (Z.of_nat (String.length answer)) / 200) 1)%Q
    ∧ (answer = "" → (v == 0)%Q)
    ∧ (200 ≤ Z.of_nat (String.length answer) → (v == 1)%Q)
    ∧ (Z.of_nat (String.length answer) = 100 → (v == 0.5)%Q).
Proof.
  destruct (response_completeness_value answer) as (v & Hv & Hmin).
  exists v. split; [exact Hv|]. split; [exact Hmin|].
  unfold Py.len in Hmin. rewrite Hmin.
  split; [intros ->; reflexivity|].
  split; intros Hlen.
  - apply Q.min_r. rewrite ratio_200. unfold Qle. simpl. lia.
  - rewrite Hlen. reflexivity.
Qed.

(** The three literal cases of C9, on strings of 0, 100 and 250
    characters. *)
Lemma response_completeness_spec_witness :
  let s100 := Py.join "" (repeat "0123456789" 10) in
  let s250 := Py.join "" (repeat "0123456789" 25) in
  ∃ v0 v100 v250 : Q,
    Enhanced.response_completeness "" = Ok v0 ∧ (v0 == 0)%Q
    ∧ Enhanced.response_completeness s100 = Ok v100 ∧ (v100 == 0.5)%Q
    ∧ Enhanced.response_completeness s250 = Ok v250 ∧ (v250 == 1)%Q.
Proof.
  intros s100 s250.
  destruct (response_completeness_spec "") as (v0 & E0 & _ & H0 & _).
  destruct (response_completeness_spec s100) as (v1 & E1 & _ & _ & _ & H1).
  destruct (response_completeness_spec s250) as (v2 & E2 & _ & _ & H2 & _).
  exists v0, v1, v2.
  repeat split; try assumption.
  - now apply H0.
  - apply H1. reflexivity.
  - apply H2. vm_compute. discriminate.
Defined.

End Completeness.

(** ** The response-time curve *)

Section Efficiency.

Lemma response_efficiency_cases (t : Q) :
  ∃ v : Q,
    Enhanced.response_efficiency t = Ok v
    ∧ (t <= 0 → v == 0)%Q
    ∧ (2 <= t <= 8 → v == 1)%Q
    ∧ (0 < t < 2 → v == t / 2)%Q
    ∧ (8 < t → v == Qmax 0.1 (8 / t) ∧ 0.1 <= v)%Q.
Proof.
  unfold Enhanced.response_efficiency.
  destruct (Py.lt 0 t) eqn:Hpos.
  - apply lt_true in Hpos.
    destruct (Py.le 2 t) eqn:H2; simpl.
    + apply le_true in H2.
      destruct (Py.le t 8) eqn:H8.
      * apply le_true in H8. exists 1%Q.
        repeat split; try reflexivity; intros; exfalso; lra.
      * apply le_false in H8.
        assert (Py.lt t 2 = false) as -> by (apply lt_false; lra).
        rewrite truediv_nonzero by (intros E; rewrite E in Hpos; discriminate).
        exists (Py.max 0.1 (8 / t)). simpl.
        repeat split; try (intros; exfalso; lra).
        -- apply max_Qmax.
        -- rewrite max_Qmax. apply Q.le_max_l.
    + apply le_false in H2.
      assert (Py.lt t 2 = true) as -> by (apply lt_true; lra).
      rewrite truediv_nonzero by discriminate.
      exists (t / 2)%Q.
      repeat split; try reflexivity; intros; exfalso; lra.
  - apply lt_false in Hpos. exists 0%Q.
    repeat split; try reflexivity; intros; exfalso; lra.
Qed.

Lemma response_efficiency_range (t v : Q) :
  Enhanced.response_efficiency t = Ok v → (0 <= v <= 1)%Q.
Proof.
  intros Hv.
  destruct (response_efficiency_cases t) as (v' & Hv' & H0 & H1 & Hfast & Hslow).
  rewrite Hv in Hv'. injection Hv' as <-.
  destruct (Qlt_le_dec 0 t) as [Hpos|Hneg]; [|rewrite H0 by exact Hneg; lra].
  destruct (Qlt_le_dec t 2) as [Hlt2|Hge2].
  - rewrite Hfast by (split; assumption).
    split; [apply Qle_shift_div_l|apply Qle_shift_div_r]; lra.
  - destruct (Qlt_le_dec 8 t) as [Hgt8|Hle8]; [|rewrite H1 by (split; assumption); lra].
    destruct (Hslow Hgt8) as [Hmax Hfloor]. split; [lra|].
    rewrite Hmax. apply Q.max_lub; [discriminate|].
    apply Qle_shift_div_r; lra.
Qed.

(** C4: [response_efficiency] always returns, and its value follows the
    four branches of the curve: 0.0 up to 0, half the time below 2, 1.0
    from 2 to 8, and [max(0.1, 8/t)], which is at least 0.1, above 8;
    the four literal values at 5, 1, 16 and 0 are as stated. *)
Theorem response_efficiency_spec :
  (∀ t : Q, ∃ v : Q,
      Enhanced.response_efficiency t = Ok v
      ∧ (t <= 0 → v == 0)%Q
      ∧ (2 <= t <= 8 → v == 1)%Q
      ∧ (0 < t < 2 → v == t / 2)%Q
      ∧ (8 < t → v == Qmax 0.1 (8 / t) ∧ 0.1 <= v)%Q)
  ∧ Enhanced.response_efficiency 5.0 = Ok 1%Q
  ∧ (∃ v, Enhanced.response_efficiency 1.0 = Ok v ∧ (v == 0.5)%Q)
  ∧ (∃ v, Enhanced.response_efficiency 16.0 = Ok v ∧ (v == 0.5)%Q)
  ∧ Enhanced.response_efficiency 0.0 = Ok 0%Q.
Proof.
  split; [exact response_efficiency_cases|].
  repeat split; try reflexivity; eexists; split; reflexivity.
Qed.

(** C4 at a slow answer of 100 seconds: the floor of 0.1 is reached. *)
Lemma response_efficiency_spec_witness :
  (8 < 100)%Q ∧
  ∃ v : Q, Enhanced.response_efficiency 100 = Ok v
           ∧ (v == Qmax 0.1 (8 / 100))%Q ∧ (0.1 <= v)%Q.
Proof.
  split; [reflexivity|].
  destruct (proj1 response_efficiency_spec 100%Q) as (v & Ev & _ & _ & _ & Hslow).
  exists v. split; [exact Ev|]. apply Hslow. reflexivity.
Defined.

End Efficiency.

(** ** Grade banding *)

Section Grades.

Ltac band_case H :=
  first [ apply ge_true in H | apply ge_false in H ].

Lemma get_score_grade_band (score : Q) :
  Spec.band score (Enhanced.get_score_grade score).
Proof.
  unfold Enhanced.get_score_grade.
  destruct (Py.ge score 0.9) eqn:H9; band_case H9;
    [now apply Spec.band_A_plus|].
  destruct (Py.ge score 0.8) eqn:H8; band_case H8;
    [now apply Spec.band_A|].
  destruct (Py.ge score 0.7) eqn:H7; band_case H7;
    [now apply Spec.band_B|].
  destruct (Py.ge score 0.6) eqn:H6; band_case H6;
    [now apply Spec.band_C|].
  destruct (Py.ge score 0.5) eqn:H5; band_case H5;
    [now apply Spec.band_D|].
  now apply Spec.band_F.
Qed.

Lemma band_functional (score : Q) (g1 g2 : string) :
  Spec.band score g1 → Spec.band score g2 → g1 = g2.
Proof.
  intros H1 H2; destruct H1, H2; try reflexivity; exfalso; lra.
Qed.

(** C5: [get_score_grade] is defined on every score, also below 0 and
    above 1, and returns the band whose inclusive lower threshold the
    score reaches: A+ from 0.9, A from 0.8, B from 0.7, C from 0.6, D
    from 0.5, F below; with the four boundary values as stated. *)
Theorem get_score_grade_spec :
  (∀ score : Q,
      ((0.9 <= score)%Q → Enhanced.get_score_grade score = "A+")
      ∧ ((0.8 <= score < 0.9)%Q → Enhanced.get_score_grade score = "A")
      ∧ ((0.7 <= score < 0.8)%Q → Enhanced.get_score_grade score = "B")
      ∧ ((0.6 <= score < 0.7)%Q → Enhanced.get_score_grade score = "C")
      ∧ ((0.5 <= score < 0.6)%Q → Enhanced.get_score_grade score = "D")
      ∧ ((score < 0.5)%Q → Enhanced.get_score_grade score = "F"))
  ∧ Enhanced.get_score_grade 0.9 = "A+"
  ∧ Enhanced.get_score_grade 0.89999 = "A"
  ∧ Enhanced.get_score_grade 0.5 = "D"
  ∧ Enhanced.get_score_grade 0.49999 = "F"
  ∧ Enhanced.get_score_grade (-3) = "F"
  ∧ Enhanced.get_score_grade 7 = "A+".
Proof.
  split; [|repeat split; reflexivity].
  intros score. pose proof (get_score_grade_band score) as Hb.
  repeat split; intros H;
    eapply band_functional; try exact Hb; constructor; exact H.
Qed.

(** C5 at a score inside a band. *)
Lemma get_score_grade_spec_witness :
  (0.7 <= 0.75 < 0.8)%Q ∧ Enhanced.get_score_grade 0.75 = "B".
Proof.
  assert (0.7 <= 0.75 < 0.8)%Q as H by (split; [discriminate|reflexivity]).
  split; [exact H|].
  exact (proj1 (proj2 (proj2 (proj1 get_score_grade_spec 0.75%Q))) H).
Defined.

(** C10: the grade functions of the two scripts agree on every score. *)
Theorem grade_functions_agree (score : Q) :
  Enhanced.get_score_grade score = Ragas.get_overall_grade score.
Proof.
  unfold Enhanced.get_score_grade, Ragas.get_overall_grade.
  destruct (Py.ge score 0.9); [reflexivity|].
  destruct (Py.ge score 0.8); [reflexivity|].
  destruct (Py.ge score 0.7); [reflexivity|].
  destruct (Py.ge score 0.6); [reflexivity|].
  destruct (Py.ge score 0.5); reflexivity.
Qed.

End Grades.

(** ** Substring search and the specificity heuristic *)

Section Specificity.

Lemma starts_with_spec (sub s : string) :
  Py.starts_with sub s = true ↔ ∃ post, s = sub ++ post.
Proof.
  revert s. induction sub as [|a sub IH]; intros s; simpl.
  - split; [intros _; now exists s|reflexivity].
  - destruct s as [|b s].
    + split; [discriminate|intros [post H]; discriminate].
    + destruct (Ascii.eqb a b) eqn:E.
      * apply Ascii.eqb_eq in E. subst b. rewrite IH.
        split; intros [post H]; exists post; [now rewrite H|].
        simpl in H. now injection H.
      * apply Ascii.eqb_neq in E.
        split; [discriminate|intros [post H]].
        simpl in H. injection H as Hab _. congruence.
Qed.

Lemma contains_spec (sub s : string) :
  Py.contains sub s = true ↔ Spec.is_substring sub s.
Proof.
  unfold Spec.is_substring.
  induction s as [|c s IH]; simpl; rewrite orb_true_iff, starts_with_spec.
  - split.
    + intros [[post H]|H]; [|discriminate]. now exists "", post.
    + intros (pre & post & H). left.
      destruct pre; [|discriminate]. now exists post.
  - rewrite IH. split.
    + intros [[post H]|(pre & post & H)].
      * now exists "", post.
      * exists (String c pre), post. simpl. now rewrite H.
    + intros (pre & post & H). destruct pre as [|c' pre].
      * left. now exists post.
      * right. simpl in H. injection H as _ H. now exists pre, post.
Qed.

(** The terms the code counts: those of the list that the search finds. *)
Lemma answer_specificity_counts (answer : string) :
  ∃ found : list string,
    Spec.occurring_terms answer found
    ∧ (List.length found ≤ 8)%nat
    ∧ Enhanced.answer_specificity answer
      = Ok (inject_Z (Z.of_nat (List.length found)) / 8)%Q.
Proof.
  exists (filter (λ term, Py.contains term (Py.lower answer) = true)
                 Enhanced.specific_terms).
  split; [split|split].
  - apply NoDup_filter.
    apply (bool_decide_unpack (NoDup Enhanced.specific_terms)).
    vm_compute. exact I.
  - intros term. rewrite list_elem_of_filter, contains_spec. tauto.
  - etransitivity; [apply length_filter|reflexivity].
  - unfold Enhanced.answer_specificity, Py.len_list.
    now rewrite truediv_nonzero by discriminate.
Qed.

Lemma answer_specificity_range (answer : string) (v : Q) :
  Enhanced.answer_specificity answer = Ok v → (0 <= v <= 1)%Q.
Proof.
  destruct (answer_specificity_counts answer) as (found & _ & Hlen & ->).
  intros [= <-].
  split; [apply Qle_shift_div_l|apply Qle_shift_div_r];
    try reflexivity; unfold Qle; simpl; lia.
Qed.

Lemma example_terms :
  Spec.occurring_terms "$250,000 in 5 minutes with a 650 score"
                       ["$"; "minutes"; "score"].
Proof.
  split; [apply (bool_decide_unpack (NoDup ["$"; "minutes"; "score"]));
          vm_compute; exact I|].
  intros term. rewrite <- contains_spec. split.
  - intros Hin.
    repeat (apply elem_of_cons in Hin as [->|Hin]);
      try (now apply elem_of_nil in Hin);
      (split; [repeat constructor|vm_compute; reflexivity]).
  - intros [Hin Hfound]. unfold Enhanced.specific_terms in Hin.
    repeat (apply elem_of_cons in Hin as [->|Hin]);
      try (now apply elem_of_nil in Hin);
      try (vm_compute in Hfound; discriminate);
      repeat constructor.
Qed.

(** C3, as the code has it: [answer_specificity] always returns the
    number of the eight fixed terms that occur as substrings of the
    lowercased answer, divided by 8; for the answer
    ["$250,000 in 5 minutes with a 650 score"] three terms occur (the
    dollar sign, "minutes" and "score") and the result is 3/8 = 0.375. *)
Theorem answer_specificity_spec :
  (∀ answer : string, ∃ found : list string,
      Spec.occurring_terms answer found
      ∧ (List.length found ≤ 8)%nat
      ∧ Enhanced.answer_specificity answer
        = Ok (inject_Z (Z.of_nat (List.length found)) / 8)%Q)
  ∧ Enhanced.specific_terms
    = ["$"; "%"; "minutes"; "days"; "years"; "score"; "income"; "equity"]
  ∧ Spec.occurring_terms "$250,000 in 5 minutes with a 650 score"
                         ["$"; "minutes"; "score"]
  ∧ Enhanced.answer_specificity "$250,000 in 5 minutes with a 650 score"
    = Ok (3 # 8)%Q
  ∧ (3 # 8 == 0.375)%Q.
Proof.
  split; [exact answer_specificity_counts|].
  split; [reflexivity|]. split; [exact example_terms|].
  split; vm_compute; reflexivity.
Qed.

(** C3 as stated fails on its own example: the value there is not 4/8. *)
Lemma answer_specificity_example_not_half :
  ∃ v : Q,
    Enhanced.answer_specificity "$250,000 in 5 minutes with a 650 score" = Ok v
    ∧ ¬ (v == 4 / 8)%Q.
Proof.
  exists (3 # 8)%Q. split; [vm_compute; reflexivity|].
  intros H. vm_compute in H. discriminate.
Qed.

End Specificity.

(** ** Word overlap: context utilization and ground-truth coverage *)

Section Overlap.

Implicit Types words other : gset string.

Lemma size_zero_empty words : size words = 0%nat ↔ words = ∅.
Proof. rewrite size_empty_iff. apply leibniz_equiv_iff. Qed.

Lemma truthy_set_true words : Py.truthy_set words = true ↔ words ≠ ∅.
Proof.
  unfold Py.truthy_set, Py.len_set.
  rewrite negb_true_iff, Z.eqb_neq.
  rewrite <- (size_zero_empty words). lia.
Qed.

Lemma truthy_set_false words : Py.truthy_set words = false ↔ words = ∅.
Proof.
  unfold Py.truthy_set, Py.len_set.
  rewrite negb_false_iff, Z.eqb_eq.
  rewrite <- (size_zero_empty words). lia.
Qed.

Lemma overlap_truediv_nonempty words other :
  words ≠ ∅ →
  Py.truediv (inject_Z (Py.len_set (words ∩ other)))
             (inject_Z (Py.len_set words))
  = Ok (Spec.overlap_ratio words other).
Proof.
  intros Hne. apply truediv_nonzero.
  assert (size words ≠ 0%nat) as Hpos by (now rewrite size_zero_empty).
  unfold Py.len_set, Qeq. simpl. lia.
Qed.

Lemma overlap_truediv_empty other :
  Py.truediv (inject_Z (Py.len_set (∅ ∩ other)))
             (inject_Z (Py.len_set ∅))
  = Raise ZeroDivisionError.
Proof. apply truediv_zero. reflexivity. Qed.

Lemma overlap_ratio_range words other :
  words ≠ ∅ → (0 <= Spec.overlap_ratio words other <= 1)%Q.
Proof.
  intros Hne. unfold Spec.overlap_ratio, Py.len_set.
  assert (size (words ∩ other) ≤ size words)%nat as Hsub
    by (apply subseteq_size, intersection_subseteq_l).
  assert (size words ≠ 0%nat) as Hpos
    by (now rewrite size_zero_empty).
  split; [apply Qle_shift_div_l|apply Qle_shift_div_r];
    unfold Qlt, Qle; simpl; lia.
Qed.

(** *** Context utilization *)

Lemma context_utilization_cases (contexts : list string) (answer : string) :
  let context_words := Spec.distinct_lowercased_words (Py.join " " contexts) in
  let answer_words := Spec.distinct_lowercased_words answer in
  (contexts = [] ∨ answer = "" ∨ context_words = ∅ →
     Enhanced.context_utilization contexts answer = Ok 0%Q)
  ∧ (contexts ≠ [] → answer ≠ "" → context_words ≠ ∅ →
     Enhanced.context_utilization contexts answer
     = Ok (Spec.overlap_ratio context_words answer_words)).
Proof.
  unfold Enhanced.context_utilization, Spec.distinct_lowercased_words,
    Py.set_of.
  set (context_words := list_to_set (Py.split (Py.lower (Py.join " " contexts)))).
  set (answer_words := list_to_set (Py.split (Py.lower answer))).
  cbv zeta.
  destruct (Py.truthy_list contexts) eqn:Hc;
    [apply truthy_list_true in Hc|apply truthy_list_false in Hc];
    (destruct (Py.truthy answer) eqn:Ha;
      [apply truthy_true in Ha|apply truthy_false in Ha]);
    cbn [andb]; try (split; [reflexivity|intros; contradiction]).
  destruct (Py.truthy_set context_words) eqn:Hw;
    [apply truthy_set_true in Hw|apply truthy_set_false in Hw].
  - split; [intros [?|[?|?]]; contradiction|intros _ _ _].
    now apply overlap_truediv_nonempty.
  - split; [reflexivity|intros; contradiction].
Qed.

Lemma context_utilization_range (contexts : list string) (answer : string) (v : Q) :
  Enhanced.context_utilization contexts answer = Ok v → (0 <= v <= 1)%Q.
Proof.
  intros Hv.
  destruct (context_utilization_cases contexts answer) as [Hzero Hratio].
  destruct (decide (contexts = [])) as [Hc|Hc];
    [rewrite Hzero in Hv by auto; injection Hv as <-; lra|].
  destruct (decide (answer = "")) as [Ha|Ha];
    [rewrite Hzero in Hv by auto; injection Hv as <-; lra|].
  destruct (decide (Spec.distinct_lowercased_words (Py.join " " contexts) = ∅))
    as [Hw|Hw];
    [rewrite Hzero in Hv by auto; injection Hv as <-; lra|].
  rewrite Hratio in Hv by assumption. injection Hv as <-.
  now apply overlap_ratio_range.
Qed.

(** C8: [context_utilization] always returns. It is the number of
    distinct lowercased whitespace tokens that the answer shares with
    the contexts (joined, as the code does, with single spaces), divided
    by the number of distinct lowercased whitespace tokens of the joined
    contexts; and it is 0.0, no division being attempted, when the list
    of contexts is empty, when the answer is empty and when the contexts
    hold no token, whatever the answer. *)
Theorem context_utilization_spec (contexts : list string) (answer : string) :
  let context_words := Spec.distinct_lowercased_words (Py.join " " contexts) in
  let answer_words := Spec.distinct_lowercased_words answer in
  (contexts = [] ∨ answer = "" ∨ context_words = ∅ →
     Enhanced.context_utilization contexts answer = Ok 0%Q)
  ∧ (contexts ≠ [] → answer ≠ "" → context_words ≠ ∅ →
     Enhanced.context_utilization contexts answer
     = Ok (inject_Z (Z.of_nat (size (answer_words ∩ context_words)))
           / inject_Z (Z.of_nat (size context_words)))%Q).
Proof.
  intros context_words answer_words.
  destruct (context_utilization_cases contexts answer) as [Hzero Hratio].
  split; [exact Hzero|].
  intros Hc Ha Hw. rewrite (Hratio Hc Ha Hw).
  unfold Spec.overlap_ratio, Py.len_set.
  fold context_words answer_words.
  now rewrite (comm_L (∩) answer_words context_words).
Qed.

(** C8 on literal inputs: whitespace-only contexts give 0.0, and an
    answer sharing two of four context words gives 2/4. *)
Lemma context_utilization_spec_witness :
  Enhanced.context_utilization [" "; ""] "any answer" = Ok 0%Q
  ∧ Enhanced.context_utilization ["Up to"; "the LIMIT up"] "limit to be set"
    = Ok (2 # 4)%Q.
Proof.
  split.
  - apply (proj1 (context_utilization_spec [" "; ""] "any answer")).
    right. right. vm_compute. reflexivity.
  - rewrite (proj2 (context_utilization_spec ["Up to"; "the LIMIT up"]
                      "limit to be set"));
      [vm_compute; reflexivity|discriminate|discriminate|].
    intros H. vm_compute in H. discriminate.
Defined.

(** *** Ground-truth coverage *)

Lemma ground_truth_coverage_cases (ground_truth answer : string) :
  let gt_words := Spec.distinct_lowercased_words ground_truth in
  let answer_words := Spec.distinct_lowercased_words answer in
  (ground_truth = "" ∨ answer = "" →
     Enhanced.ground_truth_coverage ground_truth answer = Ok 0%Q)
  ∧ (ground_truth ≠ "" → answer ≠ "" → gt_words ≠ ∅ →
     Enhanced.ground_truth_coverage ground_truth answer
     = Ok (Spec.overlap_ratio gt_words answer_words))
  ∧ (ground_truth ≠ "" → answer ≠ "" → gt_words = ∅ →
     Enhanced.ground_truth_coverage ground_truth answer
     = Raise ZeroDivisionError).
Proof.
  unfold Enhanced.ground_truth_coverage, Spec.distinct_lowercased_words,
    Py.set_of.
  set (gt_words := list_to_set (Py.split (Py.lower ground_truth))).
  set (answer_words := list_to_set (Py.split (Py.lower answer))).
  cbv zeta.
  destruct (Py.truthy ground_truth) eqn:Hg;
    [apply truthy_true in Hg|apply truthy_false in Hg];
    (destruct (Py.truthy answer) eqn:Ha;
      [apply truthy_true in Ha|apply truthy_false in Ha]);
    cbn [andb];
    try (split; [reflexivity|split; intros; contradiction]).
  split; [intros [?|?]; contradiction|].
  split; intros _ _ Hw.
  - now apply overlap_truediv_nonempty.
  - rewrite Hw. apply overlap_truediv_empty.
Qed.

Lemma ground_truth_coverage_range (ground_truth answer : string) (v : Q) :
  Enhanced.ground_truth_coverage ground_truth answer = Ok v →
  (0 <= v <= 1)%Q.
Proof.
  intros Hv.
  destruct (ground_truth_coverage_cases ground_truth answer)
    as (Hzero & Hratio & Hraise).
  destruct (decide (ground_truth = "")) as [Hg|Hg];
    [rewrite Hzero in Hv by auto; injection Hv as <-; lra|].
  destruct (decide (answer = "")) as [Ha|Ha];
    [rewrite Hzero in Hv by auto; injection Hv as <-; lra|].
  destruct (decide (Spec.distinct_lowercased_words ground_truth = ∅))
    as [Hw|Hw]; [rewrite Hraise in Hv by assumption; discriminate|].
  rewrite Hratio in Hv by assumption. injection Hv as <-.
  now apply overlap_ratio_range.
Qed.

End Overlap.

(** ** The per-item scoring function as a whole *)

Section Scoring.

Variables (question answer ground_truth : string).
Variables (contexts : list string) (response_time : Q).

Lemma context_utilization_returns :
  returns (Enhanced.context_utilization contexts answer).
Proof.
  destruct (context_utilization_cases contexts answer) as [Hzero Hratio].
  destruct (decide (contexts = [])) as [Hc|Hc];
    [eexists; apply Hzero; auto|].
  destruct (decide (answer = "")) as [Ha|Ha];
    [eexists; apply Hzero; auto|].
  destruct (decide (Spec.distinct_lowercased_words (Py.join " " contexts) = ∅))
    as [Hw|Hw]; [eexists; apply Hzero; auto|].
  eexists. now apply Hratio.
Qed.

(** The function returns exactly when the ground-truth block does, and
    then the dictionary holds the values of the five blocks. *)
Lemma calculate_custom_metrics_unfold :
  ∃ v1 v2 v3 v4 : Q,
    Enhanced.response_completeness answer = Ok v1
    ∧ Enhanced.context_utilization contexts answer = Ok v2
    ∧ Enhanced.response_efficiency response_time = Ok v3
    ∧ Enhanced.answer_specificity answer = Ok v4
    ∧ Enhanced.calculate_custom_metrics
        question answer ground_truth contexts response_time
      = match Enhanced.ground_truth_coverage ground_truth answer with
        | Ok v5 =>
            Ok (<["ground_truth_coverage" := v5]>
                (<["answer_specificity" := v4]>
                 (<["response_efficiency" := v3]>
                  (<["context_utilization" := v2]>
                   (<["response_completeness" := v1]> ∅)))))
        | Raise e => Raise e
        end.
Proof.
  destruct (response_completeness_value answer) as (v1 & H1 & _).
  destruct context_utilization_returns as (v2 & H2).
  destruct (response_efficiency_cases response_time) as (v3 & H3 & _).
  destruct (answer_specificity_counts answer) as (found & _ & _ & H4).
  exists v1, v2, v3, (inject_Z (Z.of_nat (List.length found)) / 8)%Q.
  repeat (split; [assumption|]).
  unfold Enhanced.calculate_custom_metrics.
  rewrite H1, H2, H3, H4. cbn [mbind result_bind mret result_ret].
  destruct (Enhanced.ground_truth_coverage ground_truth answer); reflexivity.
Qed.

Lemma calculate_custom_metrics_raises :
  ground_truth ≠ "" → answer ≠ "" →
  Spec.distinct_lowercased_words ground_truth = ∅ →
  Enhanced.calculate_custom_metrics
    question answer ground_truth contexts response_time
  = Raise ZeroDivisionError.
Proof.
  intros Hg Ha Hw.
  destruct calculate_custom_metrics_unfold
    as (v1 & v2 & v3 & v4 & _ & _ & _ & _ & ->).
  destruct (ground_truth_coverage_cases ground_truth answer) as (_ & _ & Hraise).
  now rewrite Hraise.
Qed.

(** The scoring raises exactly on a non-empty answer paired with a
    non-empty ground truth of white space only. *)
Lemma calculate_custom_metrics_returns_iff :
  returns (Enhanced.calculate_custom_metrics
             question answer ground_truth contexts response_time)
  ↔ ¬ (answer ≠ "" ∧ ground_truth ≠ "" ∧ Spec.blank ground_truth = true).
Proof.
  destruct calculate_custom_metrics_unfold
    as (v1 & v2 & v3 & v4 & _ & _ & _ & _ & ->).
  destruct (ground_truth_coverage_cases ground_truth answer)
    as (Hzero & Hratio & Hraise).
  rewrite <- words_empty_blank.
  destruct (decide (ground_truth = "")) as [Hg|Hg];
    [rewrite Hzero by auto; split; [tauto|intros _; now eexists]|].
  destruct (decide (answer = "")) as [Ha|Ha];
    [rewrite Hzero by auto; split; [tauto|intros _; now eexists]|].
  destruct (decide (Spec.distinct_lowercased_words ground_truth = ∅))
    as [Hw|Hw].
  - rewrite Hraise by assumption. split; [intros [m Hm]; discriminate|tauto].
  - rewrite Hratio by assumption. split; [tauto|intros _; now eexists].
Qed.

(** C2: whenever [calculate_custom_metrics] returns, the dictionary it
    returns has exactly the five metric names as keys and every value
    lies in the closed interval from 0 to 1. *)
Theorem calculate_custom_metrics_range (metrics : gmap string Q) :
  Enhanced.calculate_custom_metrics
    question answer ground_truth contexts response_time = Ok metrics →
  dom metrics
  = {[ "response_completeness"; "context_utilization"; "response_efficiency";
       "answer_specificity"; "ground_truth_coverage" ]}
  ∧ ∀ (key : string) (v : Q), metrics !! key = Some v → (0 <= v <= 1)%Q.
Proof.
  destruct calculate_custom_metrics_unfold
    as (v1 & v2 & v3 & v4 & H1 & H2 & H3 & H4 & ->).
  destruct (Enhanced.ground_truth_coverage ground_truth answer) as [v5|e] eqn:H5;
    [|discriminate].
  intros [= <-]. split.
  - rewrite !dom_insert_L, dom_empty_L. set_solver.
  - apply response_completeness_range in H1.
    apply context_utilization_range in H2.
    apply response_efficiency_range in H3.
    apply answer_specificity_range in H4.
    apply ground_truth_coverage_range in H5.
    intros key v Hkey.
    repeat (apply lookup_insert_Some in Hkey as [[_ <-]|[_ Hkey]];
            [assumption|]).
    rewrite lookup_empty in Hkey. discriminate.
Qed.

End Scoring.

(** C2 on a literal item: the scoring returns, with five keys and values
    within bounds. *)
Lemma calculate_custom_metrics_range_witness :
  ∃ metrics : gmap string Q,
    Enhanced.calculate_custom_metrics
      "How much can I borrow?" "Up to $250,000 of your home equity."
      "You can borrow up to $250,000." ["Aven offers up to $250,000"] 3.5
    = Ok metrics
    ∧ dom metrics
      = {[ "response_completeness"; "context_utilization";
           "response_efficiency"; "answer_specificity";
           "ground_truth_coverage" ]}
    ∧ ∀ (key : string) (v : Q), metrics !! key = Some v → (0 <= v <= 1)%Q.
Proof.
  eexists. split; [vm_compute; reflexivity|].
  apply (calculate_custom_metrics_range
           "How much can I borrow?" "Up to $250,000 of your home equity."
           "You can borrow up to $250,000." ["Aven offers up to $250,000"] 3.5).
  vm_compute. reflexivity.
Defined.

(** C1 fails on the code: with a ground truth made of white space only
    and a non-empty answer, the ground-truth block divides by the size of
    an empty word set and the scoring raises, where the claim promises
    0.0. The context block, with the same shape, has the guard. *)
Theorem calculate_custom_metrics_blank_ground_truth :
  Spec.distinct_lowercased_words "   " = ∅
  ∧ Enhanced.context_utilization ["   "] "Up to $250,000" = Ok 0%Q
  ∧ Enhanced.ground_truth_coverage "   " "Up to $250,000"
    = Raise ZeroDivisionError
  ∧ Enhanced.calculate_custom_metrics
      "How much can I borrow?" "Up to $250,000" "   " ["   "] 3.5
    = Raise ZeroDivisionError.
Proof. repeat split; vm_compute; reflexivity. Qed.

(** ** The evaluation loop *)

Section EvaluationLoop.

Context {World : Type}.
Variable post : string → World → outcome * World.

Lemma Forall_nonempty_filter (answers : list string) :
  Forall Spec.nonempty (filter Spec.nonempty answers).
Proof.
  apply Forall_forall. intros a Ha.
  now apply list_elem_of_filter in Ha as [Ha _].
Qed.

(** The loop of the enhanced script, from any state of its two
    accumulators: it extends both by the non-empty answers received. *)
Lemma enhanced_prepare_loop_answers (questions : list qa) :
  ∀ data detailed w data' detailed' w',
    Enhanced.prepare_loop post questions data detailed w
    = Ok (data', detailed', w') →
    List.map Enhanced.dr_answer detailed'
    = (List.map Enhanced.dr_answer detailed
       ++ filter Spec.nonempty
            (List.map Enhanced.answer (Enhanced.responses post questions w)))%list
    ∧ rd_answer data'
      = (rd_answer data
         ++ filter Spec.nonempty
              (List.map Enhanced.answer (Enhanced.responses post questions w)))%list.
Proof.
  induction questions as [|q rest IH]; intros data detailed w data' detailed' w'.
  - intros [= <- <- <-]. cbn. now rewrite !app_nil_r.
  - cbn [Enhanced.prepare_loop Enhanced.responses].
    unfold Enhanced.query_rag_pipeline.
    destruct (post (qa_question q) w) as [o w1].
    set (rag := Enhanced.response_of o).
    cbn [List.map]. rewrite filter_cons.
    destruct (Py.truthy (Enhanced.answer rag)) eqn:Ht; cbn [negb].
    + apply truthy_true in Ht.
      destruct (decide (Spec.nonempty (Enhanced.answer rag))) as [_|Hn];
        [|contradiction].
      destruct (Enhanced.calculate_custom_metrics _ _ _ _ _) as [cm|e];
        cbn [mbind result_bind]; [|discriminate].
      intros Hloop. apply IH in Hloop as [Hd Hr].
      cbn [rd_answer] in Hr.
      rewrite Hd, Hr, map_app, <- !app_assoc. now cbn.
    + apply truthy_false in Ht.
      destruct (decide (Spec.nonempty (Enhanced.answer rag))) as [Hn|_];
        [contradiction|].
      apply IH.
Qed.

(** The loop returns as soon as the scoring of every answered item
    does: a skipped item is never scored. *)
Lemma enhanced_prepare_loop_returns (questions : list qa) :
  ∀ data detailed w,
    Forall2 (λ q rag, Enhanced.answer rag ≠ "" →
               returns (Enhanced.calculate_custom_metrics
                          (qa_question q) (Enhanced.answer rag)
                          (qa_ground_truth q) (Enhanced.contexts rag)
                          (Enhanced.response_time rag)))
            questions (Enhanced.responses post questions w) →
    returns (Enhanced.prepare_loop post questions data detailed w).
Proof.
  induction questions as [|q rest IH]; intros data detailed w.
  - intros _. now eexists.
  - cbn [Enhanced.prepare_loop Enhanced.responses].
    unfold Enhanced.query_rag_pipeline.
    destruct (post (qa_question q) w) as [o w1].
    set (rag := Enhanced.response_of o).
    intros Hall. apply Forall2_cons in Hall as [Hq Hrest].
    destruct (Py.truthy (Enhanced.answer rag)) eqn:Ht; cbn [negb].
    + apply truthy_true in Ht. destruct (Hq Ht) as [cm ->].
      cbn [mbind result_bind]. now apply IH.
    + now apply IH.
Qed.

Lemma ragas_prepare_loop_answers (questions : list qa) :
  ∀ data w,
    rd_answer (Ragas.prepare_loop post questions data w).1
    = (rd_answer data
       ++ filter Spec.nonempty
            (List.map Ragas.answer (Ragas.responses post questions w)))%list.
Proof.
  induction questions as [|q rest IH]; intros data w.
  - cbn. now rewrite app_nil_r.
  - cbn [Ragas.prepare_loop Ragas.responses].
    unfold Ragas.query_rag_pipeline.
    destruct (post (qa_question q) w) as [o w1].
    set (rag := Ragas.response_of o).
    cbn [List.map]. rewrite filter_cons.
    destruct (Py.truthy (Ragas.answer rag)) eqn:Ht; cbn [negb].
    + apply truthy_true in Ht.
      destruct (decide (Spec.nonempty (Ragas.answer rag))) as [_|Hn];
        [|contradiction].
      rewrite IH. cbn [rd_answer]. rewrite <- app_assoc. now cbn.
    + apply truthy_false in Ht.
      destruct (decide (Spec.nonempty (Ragas.answer rag))) as [Hn|_];
        [contradiction|].
      apply IH.
Qed.

Lemma metric_values_length (metric_name : string)
    (detailed : list Enhanced.detailed_result) :
  ∀ values,
    Enhanced.metric_values metric_name detailed = Ok values →
    List.length values = List.length detailed.
Proof.
  induction detailed as [|r rest IH]; intros values; cbn.
  - now intros [= <-].
  - destruct (getitem _ _) as [v|e]; cbn; [|discriminate].
    destruct (Enhanced.metric_values metric_name rest) as [vs|e]; cbn;
      [|discriminate].
    intros [= <-]. cbn. f_equal. now apply IH.
Qed.

(** C7: in a run of the evaluation loop that returns, the answers of the
    detailed results are exactly the non-empty answers received, in
    order: an item with an empty answer is in no detailed result, every
    detailed result has a non-empty answer, and the list of values that
    the mean and the standard deviation of a metric divide by has one
    entry per non-empty answer. The simpler loop of the second script
    keeps the same answers. *)
Theorem empty_answers_are_skipped (questions : list qa) (w : World)
    (data : ragas_data) (detailed : list Enhanced.detailed_result)
    (w' : World) :
  Enhanced.prepare_enhanced_dataset post questions w
  = Ok (data, detailed, w') →
  let received := Enhanced.responses post questions w in
  let answered := filter Spec.nonempty (List.map Enhanced.answer received) in
  Forall (λ r, Enhanced.dr_answer r ≠ "") detailed
  ∧ List.map Enhanced.dr_answer detailed = answered
  ∧ rd_answer data = answered
  ∧ (∀ metric_name values,
        Enhanced.metric_values metric_name detailed = Ok values →
        List.length values = List.length answered)
  ∧ Forall Spec.nonempty
      (rd_answer (Ragas.prepare_ragas_dataset post questions w).1)
  ∧ rd_answer (Ragas.prepare_ragas_dataset post questions w).1
    = filter Spec.nonempty
        (List.map Ragas.answer (Ragas.responses post questions w)).
Proof.
  intros Hrun received answered.
  apply enhanced_prepare_loop_answers in Hrun as [Hd Hr].
  cbn in Hd, Hr. fold received answered in Hd, Hr.
  pose proof (ragas_prepare_loop_answers questions
    {| rd_question := []; rd_answer := []; rd_contexts := [];
       rd_ground_truth := [] |} w) as Hragas.
  cbn in Hragas. fold (Ragas.prepare_ragas_dataset post questions w) in Hragas.
  repeat split.
  - apply (List.Forall_map Enhanced.dr_answer Spec.nonempty).
    rewrite Hd. apply Forall_nonempty_filter.
  - exact Hd.
  - exact Hr.
  - intros metric_name values Hv.
    rewrite (metric_values_length _ _ _ Hv), <- Hd. now rewrite length_map.
  - rewrite Hragas. apply Forall_nonempty_filter.
  - exact Hragas.
Qed.

End EvaluationLoop.

(** C7 on the small run: of three items, the failed one and the one with
    an empty answer are skipped, and the run returns although the failed
    item has a ground truth that the scoring would raise on. *)
Lemma empty_answers_are_skipped_witness :
  ∃ data detailed w',
    Enhanced.prepare_enhanced_dataset scripted sample_questions sample_world
    = Ok (data, detailed, w')
    ∧ Forall (λ r, Enhanced.dr_answer r ≠ "") detailed
    ∧ List.map Enhanced.dr_answer detailed
      = ["Up to $250,000 of your home equity."]
    ∧ rd_answer data = ["Up to $250,000 of your home equity."].
Proof.
  destruct (Enhanced.prepare_enhanced_dataset scripted sample_questions
              sample_world) as [[[data detailed] w']|e] eqn:Hrun;
    [|vm_compute in Hrun; discriminate].
  exists data, detailed, w'. split; [reflexivity|].
  destruct (empty_answers_are_skipped scripted sample_questions sample_world
              data detailed w' Hrun) as (Hall & Hd & Hr & _).
  repeat split; assumption.
Defined.

(** ** Aggregation *)

(** *** numpy's sums *)

Section Numpy64.

Lemma pairwise_sum_rec_fuel (fuel1 : nat) :
  ∀ (fuel2 : nat) (a : list float),
    (List.length a ≤ fuel1)%nat → (List.length a ≤ fuel2)%nat →
    Np64.pairwise_sum_rec fuel1 a = Np64.pairwise_sum_rec fuel2 a.
Proof.
  induction fuel1 as [|fuel1 IH]; intros fuel2 a H1 H2.
  - destruct a; [|cbn in H1; lia]. now destruct fuel2.
  - destruct fuel2 as [|fuel2].
    { destruct a; [reflexivity|cbn in H2; lia]. }
    cbn [Np64.pairwise_sum_rec].
    destruct (List.length a <? 8)%nat; [reflexivity|].
    destruct (List.length a <=? 128)%nat eqn:Hblock; [reflexivity|].
    apply Nat.leb_gt in Hblock.
    set (n := List.length a) in *.
    pose proof (Nat.div_mod_eq n 2) as Hhalf.
    pose proof (Nat.mod_upper_bound n 2 ltac:(lia)) as Hrem.
    pose proof (Nat.Div0.mod_le (n / 2) 8) as Hle.
    pose proof (Nat.mod_upper_bound (n / 2) 8 ltac:(lia)) as Hlt.
    f_equal; apply IH; rewrite ?length_take, ?length_drop; fold n; lia.
Qed.

(** The model of [pairwise_sum] satisfies the recursion of the source:
    the fuel plays no part. *)
Lemma pairwise_sum_unfold (a : list float) :
  Np64.pairwise_sum a
  = let n := List.length a in
    if (n <? 8)%nat then Np64.accumulate 0%float a
    else if (n <=? 128)%nat then Np64.unrolled a
    else
      let n2 := (n / 2)%nat in
      let n2 := (n2 - n2 mod 8)%nat in
      (Np64.pairwise_sum (take n2 a) + Np64.pairwise_sum (drop n2 a))%float.
Proof.
  unfold Np64.pairwise_sum. destruct a as [|x a]; [reflexivity|].
  set (l := x :: a). change (List.length l) with (S (List.length a)) at 1.
  cbn [Np64.pairwise_sum_rec]. cbv zeta.
  destruct (List.length l <? 8)%nat; [reflexivity|].
  destruct (List.length l <=? 128)%nat eqn:Hblock; [reflexivity|].
  apply Nat.leb_gt in Hblock.
  assert (List.length l = S (List.length a)) as Hl by reflexivity.
  set (n := List.length l) in *.
  pose proof (Nat.div_mod_eq n 2) as Hhalf.
  pose proof (Nat.mod_upper_bound n 2 ltac:(lia)) as Hrem.
  pose proof (Nat.Div0.mod_le (n / 2) 8) as Hle.
  pose proof (Nat.mod_upper_bound (n / 2) 8 ltac:(lia)) as Hlt.
  f_equal; apply pairwise_sum_rec_fuel;
    rewrite ?length_take, ?length_drop; fold n; lia.
Qed.

(** Fewer than eight values are added from the left. *)
Lemma sum_few (a : list float) :
  (List.length a < 8)%nat →
  Np64.sum a = (0 + foldl PrimFloat.add 0 a)%float.
Proof.
  intros Hn. unfold Np64.sum. rewrite pairwise_sum_unfold. cbv zeta.
  apply Nat.ltb_lt in Hn. now rewrite Hn.
Qed.

(** Values of the model to set beside numpy's: [np.sum([0.1] * 10)] is
    1.0, where adding from the left gives 0.9999999999999999; fifteen
    values go through the eight accumulators, three hundred through one
    split. *)
Example sum_ten_tenths :
  Np64.sum (repeat 0.1%float 10) = 1%float
  ∧ foldl PrimFloat.add 0%float (repeat 0.1%float 10)
    = 0.9999999999999999%float.
Proof. split; vm_compute; reflexivity. Qed.

Example mean_std_fifteen :
  let values := [0.1; 0.2; 0.3; 0.4; 0.5; 0.6; 0.7; 0.8; 0.9;
                 0.15; 0.25; 0.35; 0.45; 0.55; 0.65]%float in
  Np64.mean values = 0.46%float
  ∧ Np64.std values 0 = 0.23252240035460384%float.
Proof. split; vm_compute; reflexivity. Qed.

Example sum_three_hundred_tenths :
  Np64.sum (repeat 0.1%float 300) = 29.999999999999996%float.
Proof. vm_compute. reflexivity. Qed.

Lemma np64_mean_spec (values : list float) :
  Np64.mean values = Spec.mean64 values.
Proof. reflexivity. Qed.

(** Without [ddof] the divisor of the deviation is the count; with
    [ddof=1] it would be one less. *)
Lemma np64_std_population (values : list float) :
  Np64.std values 0 = Spec.population_std64 values.
Proof.
  unfold Np64.std, Np64.var, Spec.population_std64, Spec.squared_deviations64.
  cbv zeta. rewrite List.map_map.
  replace (Z.max (Z.of_nat (List.length values) - 0) 0)
    with (Z.of_nat (List.length values)) by lia.
  reflexivity.
Qed.

Lemma np64_std_sample (values : list float) :
  Np64.std values 1 = Spec.sample_std64 values.
Proof.
  unfold Np64.std, Np64.var, Spec.sample_std64, Spec.squared_deviations64.
  cbv zeta. rewrite List.map_map.
  replace (Z.max (Z.of_nat (List.length values) - 1) 0)
    with (Z.of_nat (List.length values - 1)) by lia.
  reflexivity.
Qed.

End Numpy64.

(** *** The aggregation block *)

Section Aggregation.

Lemma metric_values_well_formed (metric_name : string)
    (detailed : list Enhanced.detailed_result) :
  metric_name ∈ Enhanced.metric_names →
  Forall Spec.well_formed detailed →
  ∃ values, Enhanced.metric_values metric_name detailed = Ok values
            ∧ Spec.values_of metric_name detailed values.
Proof.
  intros Hname Hwf. induction Hwf as [|r rest Hr _ IH].
  - exists []. split; [reflexivity|constructor].
  - destruct IH as (vs & Hvs & Hall).
    assert (is_Some (Enhanced.dr_custom_metrics r !! metric_name)) as [q Hq].
    { apply elem_of_dom. rewrite Hr. now apply elem_of_list_to_set. }
    exists (Q2R q :: vs). split.
    + cbn. unfold getitem. rewrite Hq, Hvs. reflexivity.
    + constructor; [now rewrite Hq|exact Hall].
Qed.

Lemma metric_values64_well_formed (metric_name : string)
    (detailed : list Enhanced64.detailed_result) :
  metric_name ∈ Enhanced.metric_names →
  Forall Spec.well_formed64 detailed →
  ∃ values, Enhanced64.metric_values metric_name detailed = Ok values
            ∧ Spec.values64_of metric_name detailed values.
Proof.
  intros Hname Hwf. induction Hwf as [|r rest Hr _ IH].
  - exists []. split; [reflexivity|constructor].
  - destruct IH as (vs & Hvs & Hall).
    assert (is_Some (Enhanced64.dr_custom_metrics r !! metric_name)) as [q Hq].
    { apply elem_of_dom. rewrite Hr. now apply elem_of_list_to_set. }
    exists (q :: vs). split.
    + cbn. unfold getitem. rewrite Hq, Hvs. reflexivity.
    + constructor; [exact Hq|exact Hall].
Qed.

(** C6, in the arithmetic of the code: on a non-empty list of detailed
    results that hold the five metrics the aggregation returns, and for
    each of the five metrics the entry [avg_<metric>] is the binary64
    mean of that metric's values across all items (numpy's sum of the
    values divided by their number) and the entry [std_<metric>] is
    their binary64 population standard deviation: the square root of
    numpy's sum of the squared deviations from that mean, divided by the
    number of items, not by one less. Every operation rounds, so the
    entries are the arithmetic mean and the population standard
    deviation up to rounding only. *)
Theorem custom_results_binary64 (detailed : list Enhanced64.detailed_result) :
  detailed ≠ [] →
  Forall Spec.well_formed64 detailed →
  ∃ custom_results : gmap string float,
    Enhanced64.custom_results detailed = Ok custom_results
    ∧ ∀ metric_name, metric_name ∈ Enhanced.metric_names →
        ∃ values : list float,
          Spec.values64_of metric_name detailed values
          ∧ custom_results !! ("avg_" ++ metric_name)%string
            = Some (Spec.mean64 values)
          ∧ custom_results !! ("std_" ++ metric_name)%string
            = Some (Spec.population_std64 values).
Proof.
  intros _ Hwf.
  assert (∀ m, m ∈ Enhanced.metric_names →
            ∃ values, Enhanced64.metric_values m detailed = Ok values
                      ∧ Spec.values64_of m detailed values) as Hvalues
    by (intros m Hm; now apply metric_values64_well_formed).
  destruct (Hvalues "response_completeness") as (v1 & E1 & H1);
    [repeat constructor|].
  destruct (Hvalues "context_utilization") as (v2 & E2 & H2);
    [repeat constructor|].
  destruct (Hvalues "response_efficiency") as (v3 & E3 & H3);
    [repeat constructor|].
  destruct (Hvalues "answer_specificity") as (v4 & E4 & H4);
    [repeat constructor|].
  destruct (Hvalues "ground_truth_coverage") as (v5 & E5 & H5);
    [repeat constructor|].
  eexists. split.
  - unfold Enhanced64.custom_results, Enhanced.metric_names.
    cbn [Enhanced64.aggregate]. rewrite E1. cbn [mbind result_bind].
    rewrite E2. cbn [mbind result_bind].
    rewrite E3. cbn [mbind result_bind].
    rewrite E4. cbn [mbind result_bind].
    rewrite E5. cbn [mbind result_bind].
    reflexivity.
  - intros m Hm. unfold Enhanced.metric_names in Hm.
    repeat (apply elem_of_cons in Hm as [->|Hm]);
      [exists v1|exists v2|exists v3|exists v4|exists v5|
       now apply elem_of_nil in Hm];
      (split; [assumption|]); cbn [append];
      split;
      (etransitivity;
       [repeat (rewrite lookup_insert_ne by discriminate);
        apply lookup_insert_eq
       |f_equal; first [apply np64_mean_spec|apply np64_std_population]]).
Qed.

End Aggregation.

Section AggregationExample.

Lemma sample_result_metric (v : Q) (metric_name : string) :
  metric_name ∈ Enhanced.metric_names →
  Enhanced.dr_custom_metrics (sample_result v) !! metric_name = Some v.
Proof.
  intros Hm. unfold Enhanced.metric_names in Hm.
  repeat (apply elem_of_cons in Hm as [->|Hm]);
    try (now apply elem_of_nil in Hm);
    cbn [sample_result Enhanced.dr_custom_metrics];
    repeat (rewrite lookup_insert_ne by discriminate);
    apply lookup_insert_eq.
Qed.

Lemma sample_detailed_well_formed : Forall Spec.well_formed sample_detailed.
Proof.
  repeat constructor; unfold Spec.well_formed;
    cbn [sample_result Enhanced.dr_custom_metrics];
    rewrite !dom_insert_L, dom_empty_L; cbn; set_solver.
Qed.

Lemma sample_result64_metric (v : float) (metric_name : string) :
  metric_name ∈ Enhanced.metric_names →
  Enhanced64.dr_custom_metrics (sample_result64 v) !! metric_name = Some v.
Proof.
  intros Hm. unfold Enhanced.metric_names in Hm.
  repeat (apply elem_of_cons in Hm as [->|Hm]);
    try (now apply elem_of_nil in Hm);
    cbn [sample_result64 Enhanced64.dr_custom_metrics];
    repeat (rewrite lookup_insert_ne by discriminate);
    apply lookup_insert_eq.
Qed.

Lemma sample_detailed64_well_formed :
  Forall Spec.well_formed64 sample_detailed64.
Proof.
  repeat constructor; unfold Spec.well_formed64;
    cbn [sample_result64 Enhanced64.dr_custom_metrics];
    rewrite !dom_insert_L, dom_empty_L; cbn; set_solver.
Qed.

Lemma sample_values64 (metric_name : string) (values : list float) :
  metric_name ∈ Enhanced.metric_names →
  Spec.values64_of metric_name sample_detailed64 values →
  values = [0.2; 0.4; 0.6]%float.
Proof.
  intros Hm Hvalues. unfold Spec.values64_of, sample_detailed64 in Hvalues.
  repeat match goal with
         | H : Forall2 _ (_ :: _) _ |- _ =>
             apply Forall2_cons_inv_l in H as (? & ? & ? & ? & ->)
         | H : Forall2 _ [] _ |- _ => apply Forall2_nil_inv_l in H as ->
         | H : _ !! _ = Some _ |- _ =>
             rewrite sample_result64_metric in H by assumption;
             injection H as <-
         end.
  reflexivity.
Qed.

Lemma sample_mean64 :
  Spec.mean64 [0.2; 0.4; 0.6]%float = 0.4000000000000001%float.
Proof. vm_compute. reflexivity. Qed.

Lemma sample_mean64_exact :
  F64.strictly_between 0.4 (0.4 + 1e-15) 0.4000000000000001%float.
Proof. eexists. split; [vm_compute; reflexivity|]. split; reflexivity. Qed.

Lemma sample_population_std64 :
  Spec.population_std64 [0.2; 0.4; 0.6]%float = 0.1632993161855452%float.
Proof. vm_compute. reflexivity. Qed.

Lemma sample_population_std64_exact :
  F64.strictly_between 0.163 0.1634 0.1632993161855452%float.
Proof. eexists. split; [vm_compute; reflexivity|]. split; reflexivity. Qed.

Lemma sample_sample_std64 :
  Spec.sample_std64 [0.2; 0.4; 0.6]%float = 0.19999999999999998%float.
Proof. vm_compute. reflexivity. Qed.

(** C6 on three items whose values of a metric are 0.2, 0.4 and 0.6:
    the mean is the double 0.4000000000000001, above 0.4 by less than
    1e-15, and the standard deviation is the double 0.1632993161855452,
    between 0.163 and 0.1634; the sample standard deviation of the same
    values would be 0.19999999999999998. *)
Lemma custom_results_binary64_witness :
  sample_detailed64 ≠ []
  ∧ Forall Spec.well_formed64 sample_detailed64
  ∧ ∃ (custom_results : gmap string float) (avg std : float),
      Enhanced64.custom_results sample_detailed64 = Ok custom_results
      ∧ custom_results !! "avg_response_efficiency" = Some avg
      ∧ custom_results !! "std_response_efficiency" = Some std
      ∧ avg = 0.4000000000000001%float
      ∧ F64.strictly_between 0.4 (0.4 + 1e-15) avg
      ∧ std = 0.1632993161855452%float
      ∧ F64.strictly_between 0.163 0.1634 std
      ∧ Spec.sample_std64 [0.2; 0.4; 0.6]%float = 0.19999999999999998%float.
Proof.
  assert (sample_detailed64 ≠ []) as Hne by discriminate.
  pose proof sample_detailed64_well_formed as Hwf.
  split; [exact Hne|]. split; [exact Hwf|].
  destruct (custom_results_binary64 sample_detailed64 Hne Hwf)
    as (custom_results & Hrun & Hall).
  assert ("response_efficiency" ∈ Enhanced.metric_names) as Hm
    by (repeat constructor).
  destruct (Hall "response_efficiency" Hm) as (values & Hvalues & Havg & Hstd).
  apply sample_values64 in Hvalues; [|exact Hm]. subst values.
  rewrite sample_mean64 in Havg. rewrite sample_population_std64 in Hstd.
  exists custom_results, 0.4000000000000001%float, 0.1632993161855452%float.
  split; [exact Hrun|]. split; [exact Havg|]. split; [exact Hstd|].
  split; [reflexivity|]. split; [exact sample_mean64_exact|].
  split; [reflexivity|]. split; [exact sample_population_std64_exact|].
  exact sample_sample_std64.
Defined.

(** The example of C6 as the claim words it: the mean of 0.2, 0.4 and
    0.6 that the aggregation stores is not 0.4, neither the double of
    that literal nor the number itself. *)
Lemma custom_results_mean_is_rounded :
  ∃ (custom_results : gmap string float) (avg : float) (q : Q),
    Enhanced64.custom_results sample_detailed64 = Ok custom_results
    ∧ custom_results !! "avg_response_efficiency" = Some avg
    ∧ PrimFloat.eqb avg 0.4 = false
    ∧ F64.exact avg = Some q
    ∧ ¬ (q == 0.4)%Q.
Proof.
  eexists _, 0.4000000000000001%float, _.
  split; [reflexivity|].
  split; [vm_compute; reflexivity|].
  split; [reflexivity|].
  split; [vm_compute; reflexivity|].
  discriminate.
Qed.

End AggregationExample.

(** * Further properties of the two scripts *)

(** ** The request to the service *)

Section Query.

Lemma enhanced_response_not_200 (status_code : Z) (data : body) (elapsed : Q) :
  status_code ≠ 200 →
  Enhanced.response_of (Reply status_code data elapsed)
  = Enhanced.failed_response.
Proof.
  intros Hne. destruct status_code as [|p|p]; try reflexivity.
  do 8 (destruct p as [p|p|]; try reflexivity). contradiction.
Qed.

Lemma ragas_response_not_200 (status_code : Z) (data : body) (elapsed : Q) :
  status_code ≠ 200 →
  Ragas.response_of (Reply status_code data elapsed) = Ragas.failed_response.
Proof.
  intros Hne. destruct status_code as [|p|p]; try reflexivity.
  do 8 (destruct p as [p|p|]; try reflexivity). contradiction.
Qed.

Lemma enhanced_response_contexts_length (o : outcome) :
  List.length (Enhanced.contexts (Enhanced.response_of o))
  = List.length (Enhanced.source_documents (Enhanced.response_of o)).
Proof.
  destruct o as [|status_code data elapsed]; [reflexivity|].
  destruct (decide (status_code = 200)) as [->|Hne].
  - cbn. apply length_map.
  - now rewrite enhanced_response_not_200 by exact Hne.
Qed.

(** X1: [query_rag_pipeline] of the enhanced script yields one context
    per source document, whatever the outcome of the request; and a
    non-empty answer is the answer of a reply with status 200, timed as
    that reply. *)
Theorem enhanced_response_of_spec (o : outcome) :
  List.length (Enhanced.contexts (Enhanced.response_of o))
  = List.length (Enhanced.source_documents (Enhanced.response_of o))
  ∧ (Enhanced.answer (Enhanced.response_of o) ≠ "" →
     ∃ data elapsed,
       o = Reply 200 data elapsed
       ∧ body_answer data = Some (Enhanced.answer (Enhanced.response_of o))
       ∧ Enhanced.response_time (Enhanced.response_of o) = elapsed).
Proof.
  split; [apply enhanced_response_contexts_length|].
  destruct o as [|status_code data elapsed].
  - intros H. now contradict H.
  - destruct (decide (status_code = 200)) as [->|Hne].
    + cbn. intros Ha. exists data, elapsed. repeat split.
      destruct (body_answer data); [reflexivity|now contradict Ha].
    + rewrite enhanced_response_not_200 by exact Hne.
      intros H. now contradict H.
Qed.

(** X1 on a reply with status 200 that carries an answer. *)
Lemma enhanced_response_of_spec_witness :
  let o := Reply 200
             {| body_answer := Some "Up to $250,000.";
                body_sources := Some [ {[ "content" := "Aven offers" ]}; ∅ ] |}
             2.5 in
  Enhanced.answer (Enhanced.response_of o) ≠ ""
  ∧ Enhanced.contexts (Enhanced.response_of o) = ["Aven offers"; ""]
  ∧ ∃ data elapsed, o = Reply 200 data elapsed
      ∧ body_answer data = Some (Enhanced.answer (Enhanced.response_of o))
      ∧ Enhanced.response_time (Enhanced.response_of o) = elapsed.
Proof.
  intros o.
  assert (Enhanced.answer (Enhanced.response_of o) ≠ "") as Ha by discriminate.
  split; [exact Ha|]. split; [reflexivity|].
  exact (proj2 (enhanced_response_of_spec o) Ha).
Defined.

(** The two scripts read a reply the same way. *)
Lemma response_of_agree (o : outcome) :
  Ragas.answer (Ragas.response_of o) = Enhanced.answer (Enhanced.response_of o)
  ∧ Ragas.contexts (Ragas.response_of o)
    = Enhanced.contexts (Enhanced.response_of o).
Proof.
  destruct o as [|status_code data elapsed]; [split; reflexivity|].
  destruct (decide (status_code = 200)) as [->|Hne]; [split; reflexivity|].
  rewrite enhanced_response_not_200, ragas_response_not_200 by exact Hne.
  split; reflexivity.
Qed.

End Query.

(** ** Invariants of the evaluation loop *)

Section LoopInvariants.

Context {World : Type}.
Variable post : string → World → outcome * World.

Lemma aligned_snoc (data : ragas_data)
    (detailed : list Enhanced.detailed_result) (r : Enhanced.detailed_result) :
  Spec.aligned data detailed →
  Spec.aligned
    {| rd_question := (rd_question data ++ [Enhanced.dr_question r])%list;
       rd_answer := (rd_answer data ++ [Enhanced.dr_answer r])%list;
       rd_contexts :=
         (rd_contexts data ++ [Spec.dataset_contexts (Enhanced.dr_contexts r)])%list;
       rd_ground_truth :=
         (rd_ground_truth data ++ [Enhanced.dr_ground_truth r])%list |}
    (detailed ++ [r])%list.
Proof.
  intros (Hq & Ha & Hc & Hg). unfold Spec.aligned. cbn.
  rewrite !map_app, Hq, Ha, Hc, Hg. repeat split.
Qed.

(** The loop keeps the dataset and the detailed results aligned, every
    detailed result scored, and the detailed results in catalogue
    order. *)
Lemma prepare_loop_invariant (questions : list qa) :
  ∀ data detailed w data' detailed' w',
    Enhanced.prepare_loop post questions data detailed w
    = Ok (data', detailed', w') →
    Spec.aligned data detailed →
    Forall Spec.scored detailed →
    Spec.aligned data' detailed'
    ∧ Forall Spec.scored detailed'
    ∧ ∃ added,
        detailed' = (detailed ++ added)%list
        ∧ List.map Spec.entry_of added
          `sublist_of` List.map Spec.entry_of_qa questions.
Proof.
  induction questions as [|q rest IH]; intros data detailed w data' detailed' w'.
  - intros [= <- <- <-] Hal Hsc. split; [assumption|]. split; [assumption|].
    exists []. split; [now rewrite app_nil_r|constructor].
  - cbn [Enhanced.prepare_loop]. unfold Enhanced.query_rag_pipeline.
    destruct (post (qa_question q) w) as [o w1].
    set (rag := Enhanced.response_of o).
    destruct (Py.truthy (Enhanced.answer rag)) eqn:Ht; cbn [negb].
    + destruct (Enhanced.calculate_custom_metrics _ _ _ _ _) as [cm|e] eqn:Hcm;
        cbn [mbind result_bind]; [|discriminate].
      intros Hloop Hal Hsc.
      match type of Hloop with
      | Enhanced.prepare_loop _ _ _ (_ ++ [?r])%list _ = _ => set (row := r) in *
      end.
      assert (Spec.scored row) as Hrow.
      { split; [exact Hcm|]. cbn. unfold Py.len_list. f_equal.
        symmetry. apply (enhanced_response_contexts_length o). }
      destruct (IH _ _ _ _ _ _ Hloop (aligned_snoc data detailed row Hal))
        as (Hal' & Hsc' & added & -> & Hsub).
      { apply Forall_app. split; [assumption|]. now constructor. }
      split; [assumption|]. split; [assumption|].
      exists (row :: added). split; [now rewrite <- app_assoc|].
      cbn [List.map]. now constructor.
    + intros Hloop Hal Hsc.
      destruct (IH _ _ _ _ _ _ Hloop Hal Hsc) as (Hal' & Hsc' & added & -> & Hsub).
      split; [assumption|]. split; [assumption|].
      exists added. split; [reflexivity|].
      cbn [List.map]. now apply sublist_cons.
Qed.

End LoopInvariants.

Section LoopProperties.

Context {World : Type}.
Variable post : string → World → outcome * World.

Lemma aligned_empty :
  Spec.aligned {| rd_question := []; rd_answer := []; rd_contexts := [];
                  rd_ground_truth := [] |} [].
Proof. repeat split. Qed.

Lemma dataset_contexts_nonempty (contexts : list string) :
  Spec.dataset_contexts contexts ≠ [].
Proof. destruct contexts; discriminate. Qed.

(** The bounds of the scoring, for any item. *)
Lemma scored_bounds (r : Enhanced.detailed_result) :
  Spec.scored r →
  Spec.well_formed r
  ∧ ∀ (key : string) (v : Q),
      Enhanced.dr_custom_metrics r !! key = Some v → (0 <= v <= 1)%Q.
Proof.
  intros [Hscore _]. revert Hscore.
  destruct (calculate_custom_metrics_unfold
              (Enhanced.dr_question r) (Enhanced.dr_answer r)
              (Enhanced.dr_ground_truth r) (Enhanced.dr_contexts r)
              (Enhanced.dr_response_time r))
    as (v1 & v2 & v3 & v4 & H1 & H2 & H3 & H4 & ->).
  destruct (Enhanced.ground_truth_coverage _ _) as [v5|e] eqn:H5; [|discriminate].
  intros [= Hcm]. split.
  - unfold Spec.well_formed. rewrite <- Hcm, !dom_insert_L, dom_empty_L.
    cbn. set_solver.
  - apply response_completeness_range in H1.
    apply context_utilization_range in H2.
    apply response_efficiency_range in H3.
    apply answer_specificity_range in H4.
    apply ground_truth_coverage_range in H5.
    intros key v Hkey. rewrite <- Hcm in Hkey.
    repeat (apply lookup_insert_Some in Hkey as [[_ <-]|[_ Hkey]];
            [assumption|]).
    rewrite lookup_empty in Hkey. discriminate.
Qed.

(** X2: when [prepare_enhanced_dataset] returns, the dataset handed to the
    metrics library and the detailed results describe the same items row
    by row; the four columns have one entry per detailed result, and no
    entry of the contexts column is empty (an item without contexts gets
    the placeholder). *)
Theorem dataset_rows_match_detailed_results (questions : list qa) (w : World)
    (data : ragas_data) (detailed : list Enhanced.detailed_result) (w' : World) :
  Enhanced.prepare_enhanced_dataset post questions w = Ok (data, detailed, w') →
  Spec.aligned data detailed
  ∧ List.length (rd_question data) = List.length detailed
  ∧ List.length (rd_answer data) = List.length detailed
  ∧ List.length (rd_contexts data) = List.length detailed
  ∧ List.length (rd_ground_truth data) = List.length detailed
  ∧ Forall (λ contexts, contexts ≠ []) (rd_contexts data).
Proof.
  intros Hrun.
  destruct (prepare_loop_invariant post questions _ _ _ _ _ _ Hrun
              aligned_empty (List.Forall_nil _)) as (Hal & _ & _).
  split; [exact Hal|]. destruct Hal as (Hq & Ha & Hc & Hg).
  rewrite Hq, Ha, Hc, Hg, !length_map. repeat split.
  apply List.Forall_map. apply Forall_forall.
  intros r _. apply dataset_contexts_nonempty.
Qed.

Lemma detailed_results_are_scored_rows (questions : list qa) (w : World)
    (data : ragas_data) (detailed : list Enhanced.detailed_result) (w' : World) :
  Enhanced.prepare_enhanced_dataset post questions w = Ok (data, detailed, w') →
  Forall (λ r,
      Spec.scored r
      ∧ Spec.well_formed r
      ∧ ∀ (key : string) (v : Q),
          Enhanced.dr_custom_metrics r !! key = Some v → (0 <= v <= 1)%Q)
    detailed.
Proof.
  intros Hrun.
  destruct (prepare_loop_invariant post questions _ _ _ _ _ _ Hrun
              aligned_empty (List.Forall_nil _)) as (_ & Hsc & _).
  eapply Forall_impl; [exact Hsc|].
  intros r Hr. split; [exact Hr|now apply scored_bounds].
Qed.

(** X3: when [prepare_enhanced_dataset] returns, every detailed result
    holds the score of its own answer, ground truth, contexts and response
    time, has exactly the five metrics, each between 0 and 1, and counts
    as many sources as it has contexts. *)
Theorem detailed_results_are_scored (questions : list qa) (w : World)
    (data : ragas_data) (detailed : list Enhanced.detailed_result) (w' : World) :
  Enhanced.prepare_enhanced_dataset post questions w = Ok (data, detailed, w') →
  Forall (λ r,
      Spec.scored r
      ∧ Spec.well_formed r
      ∧ ∀ (key : string) (v : Q),
          Enhanced.dr_custom_metrics r !! key = Some v → (0 <= v <= 1)%Q)
    detailed.
Proof. apply detailed_results_are_scored_rows. Qed.

(** X4: when [prepare_enhanced_dataset] returns, the detailed results
    follow the catalogue: their questions, ground truths and categories
    (with "general" for an entry without one) are those of catalogue
    entries, in catalogue order, each entry used at most once. *)
Theorem detailed_results_in_catalogue_order (questions : list qa) (w : World)
    (data : ragas_data) (detailed : list Enhanced.detailed_result) (w' : World) :
  Enhanced.prepare_enhanced_dataset post questions w = Ok (data, detailed, w') →
  List.map Spec.entry_of detailed
  `sublist_of` List.map Spec.entry_of_qa questions
  ∧ (List.length detailed ≤ List.length questions)%nat.
Proof.
  intros Hrun.
  destruct (prepare_loop_invariant post questions _ _ _ _ _ _ Hrun
              aligned_empty (List.Forall_nil _)) as (_ & _ & added & -> & Hsub).
  cbn [app]. split; [exact Hsub|].
  apply sublist_length in Hsub. now rewrite !length_map in Hsub.
Qed.

(** The loop of the second script, step for step beside the first. *)
Lemma prepare_loops_agree (questions : list qa) :
  ∀ data detailed w data' detailed' w',
    Enhanced.prepare_loop post questions data detailed w
    = Ok (data', detailed', w') →
    Ragas.prepare_loop post questions data w = (data', w').
Proof.
  induction questions as [|q rest IH]; intros data detailed w data' detailed' w'.
  - now intros [= <- <- <-].
  - cbn [Enhanced.prepare_loop Ragas.prepare_loop].
    unfold Enhanced.query_rag_pipeline, Ragas.query_rag_pipeline.
    destruct (post (qa_question q) w) as [o w1].
    destruct (response_of_agree o) as [-> ->].
    destruct (Py.truthy (Enhanced.answer (Enhanced.response_of o)));
      cbn [negb]; [|apply IH].
    destruct (Enhanced.calculate_custom_metrics _ _ _ _ _) as [cm|e];
      cbn [mbind result_bind]; [apply IH|discriminate].
Qed.

Lemma prepare_loop_all_empty (questions : list qa) :
  ∀ data detailed w,
    Forall (λ rag, Enhanced.answer rag = "")
           (Enhanced.responses post questions w) →
    ∃ w', Enhanced.prepare_loop post questions data detailed w
          = Ok (data, detailed, w').
Proof.
  induction questions as [|q rest IH]; intros data detailed w.
  - intros _. now exists w.
  - cbn [Enhanced.prepare_loop Enhanced.responses].
    unfold Enhanced.query_rag_pipeline.
    destruct (post (qa_question q) w) as [o w1].
    intros Hall. apply Forall_cons in Hall as [-> Hrest].
    cbn [Py.truthy negb]. now apply IH.
Qed.

(** X6: when every request fails or comes back with an empty answer,
    [prepare_enhanced_dataset] returns, raising nothing, an empty dataset
    and no detailed result, and [prepare_ragas_dataset] returns the same
    empty dataset: the case in which [main] reports that there is no
    valid data. *)
Theorem no_answer_no_data (questions : list qa) (w : World) :
  Forall (λ rag, Enhanced.answer rag = "")
         (Enhanced.responses post questions w) →
  ∃ w',
    Enhanced.prepare_enhanced_dataset post questions w
    = Ok ({| rd_question := []; rd_answer := []; rd_contexts := [];
             rd_ground_truth := [] |}, [], w')
    ∧ Ragas.prepare_ragas_dataset post questions w
      = ({| rd_question := []; rd_answer := []; rd_contexts := [];
            rd_ground_truth := [] |}, w').
Proof.
  intros Hall.
  destruct (prepare_loop_all_empty questions
              {| rd_question := []; rd_answer := []; rd_contexts := [];
                 rd_ground_truth := [] |} [] w Hall) as [w' Hrun].
  exists w'. split; [exact Hrun|].
  now apply (prepare_loops_agree questions _ _ _ _ _ _ Hrun).
Qed.

Lemma prepare_loop_scorable (questions : list qa) :
  ∀ data detailed w,
    Forall (λ q, Spec.scorable (qa_ground_truth q)) questions →
    returns (Enhanced.prepare_loop post questions data detailed w).
Proof.
  induction questions as [|q rest IH]; intros data detailed w Hall.
  - now eexists.
  - apply Forall_cons in Hall as [Hq Hrest].
    cbn [Enhanced.prepare_loop]. unfold Enhanced.query_rag_pipeline.
    destruct (post (qa_question q) w) as [o w1].
    destruct (Py.truthy (Enhanced.answer (Enhanced.response_of o)));
      cbn [negb]; [|now apply IH].
    destruct (proj2 (calculate_custom_metrics_returns_iff
                (qa_question q) (Enhanced.answer (Enhanced.response_of o))
                (qa_ground_truth q) (Enhanced.contexts (Enhanced.response_of o))
                (Enhanced.response_time (Enhanced.response_of o))))
      as [cm ->].
    + intros (_ & Hne & Hblank). destruct Hq as [Hq|Hq]; congruence.
    + cbn [mbind result_bind]. now apply IH.
Qed.

(** X7: over a catalogue in which every ground truth is empty or holds
    at least one character that is not white space, the scoring raises
    on no answer: [prepare_enhanced_dataset] returns on every sequence
    of failed requests and of replies of the shape that the interface
    gives them, with an answer that is a string, or none, and sources
    whose contents are strings. *)
Theorem scorable_catalogue_returns (questions : list qa) (w : World) :
  Forall (λ q, Spec.scorable (qa_ground_truth q)) questions →
  returns (Enhanced.prepare_enhanced_dataset post questions w).
Proof. apply prepare_loop_scorable. Qed.

End LoopProperties.

Section LoopWitnesses.

(** The small run returns; its one detailed result is kept below. *)
Lemma sample_run_returns :
  returns (Enhanced.prepare_enhanced_dataset scripted sample_questions
             sample_world).
Proof. eexists. vm_compute. reflexivity. Qed.

(** X2 on the small run: one row in each column, for the one answered
    item. *)
Lemma dataset_rows_match_detailed_results_witness :
  ∃ data detailed w',
    Enhanced.prepare_enhanced_dataset scripted sample_questions sample_world
    = Ok (data, detailed, w')
    ∧ Spec.aligned data detailed
    ∧ List.length (rd_contexts data) = List.length detailed
    ∧ Forall (λ contexts, contexts ≠ []) (rd_contexts data).
Proof.
  destruct (Enhanced.prepare_enhanced_dataset scripted sample_questions
              sample_world) as [[[data detailed] w']|e] eqn:Hrun;
    [|vm_compute in Hrun; discriminate].
  exists data, detailed, w'. split; [reflexivity|].
  destruct (dataset_rows_match_detailed_results scripted sample_questions
              sample_world data detailed w' Hrun)
    as (Hal & _ & _ & Hlen & _ & Hne).
  split; [exact Hal|]. split; [exact Hlen|exact Hne].
Defined.

(** X3 on the small run. *)
Lemma detailed_results_are_scored_witness :
  ∃ data detailed w',
    Enhanced.prepare_enhanced_dataset scripted sample_questions sample_world
    = Ok (data, detailed, w')
    ∧ Forall (λ r,
          Spec.scored r
          ∧ Spec.well_formed r
          ∧ ∀ (key : string) (v : Q),
              Enhanced.dr_custom_metrics r !! key = Some v → (0 <= v <= 1)%Q)
        detailed.
Proof.
  destruct (Enhanced.prepare_enhanced_dataset scripted sample_questions
              sample_world) as [[[data detailed] w']|e] eqn:Hrun;
    [|vm_compute in Hrun; discriminate].
  exists data, detailed, w'. split; [reflexivity|].
  exact (detailed_results_are_scored scripted sample_questions
           sample_world data detailed w' Hrun).
Defined.

(** X4 on the small run: the one detailed result is the first catalogue
    entry. *)
Lemma detailed_results_in_catalogue_order_witness :
  ∃ data detailed w',
    Enhanced.prepare_enhanced_dataset scripted sample_questions sample_world
    = Ok (data, detailed, w')
    ∧ List.map Spec.entry_of detailed
      `sublist_of` List.map Spec.entry_of_qa sample_questions
    ∧ (List.length detailed ≤ 3)%nat.
Proof.
  destruct (Enhanced.prepare_enhanced_dataset scripted sample_questions
              sample_world) as [[[data detailed] w']|e] eqn:Hrun;
    [|vm_compute in Hrun; discriminate].
  exists data, detailed, w'. split; [reflexivity|].
  exact (detailed_results_in_catalogue_order scripted sample_questions
           sample_world data detailed w' Hrun).
Defined.

(** X6 with a service that is down: every request fails. *)
Lemma no_answer_no_data_witness :
  Forall (λ rag, Enhanced.answer rag = "")
         (Enhanced.responses scripted sample_questions [])
  ∧ ∃ w',
      Enhanced.prepare_enhanced_dataset scripted sample_questions []
      = Ok ({| rd_question := []; rd_answer := []; rd_contexts := [];
               rd_ground_truth := [] |}, [], w')
      ∧ Ragas.prepare_ragas_dataset scripted sample_questions []
        = ({| rd_question := []; rd_answer := []; rd_contexts := [];
              rd_ground_truth := [] |}, w').
Proof.
  assert (Forall (λ rag, Enhanced.answer rag = "")
                 (Enhanced.responses scripted sample_questions [])) as Hall
    by (repeat constructor).
  split; [exact Hall|].
  exact (no_answer_no_data scripted sample_questions [] Hall).
Defined.

Lemma comprehensive_catalogue_scorable :
  Forall (λ q, Spec.scorable (qa_ground_truth q))
         Catalogue.get_comprehensive_test_questions.
Proof.
  unfold Catalogue.get_comprehensive_test_questions.
  repeat (apply List.Forall_cons; [right; reflexivity|]).
  apply List.Forall_nil.
Qed.

(** X7 on the catalogue of the enhanced script, with the scripted
    service. *)
Lemma scorable_catalogue_returns_witness :
  Forall (λ q, Spec.scorable (qa_ground_truth q))
         Catalogue.get_comprehensive_test_questions
  ∧ returns (Enhanced.prepare_enhanced_dataset scripted
               Catalogue.get_comprehensive_test_questions sample_world).
Proof.
  split; [exact comprehensive_catalogue_scorable|].
  exact (scorable_catalogue_returns scripted
           Catalogue.get_comprehensive_test_questions sample_world
           comprehensive_catalogue_scorable).
Defined.

End LoopWitnesses.

(** ** More on the word-overlap metrics *)

Section OverlapExtremes.

Implicit Types words other : gset string.

Lemma ratio_one (a b : Z) :
  0 < b → (inject_Z a / inject_Z b == 1)%Q ↔ a = b.
Proof.
  intros Hb. destruct b as [|p|p]; try lia.
  unfold Qeq, Qdiv, Qmult, Qinv, inject_Z. simpl. lia.
Qed.

Lemma ratio_zero (a b : Z) :
  0 < b → (inject_Z a / inject_Z b == 0)%Q ↔ a = 0.
Proof.
  intros Hb. destruct b as [|p|p]; try lia.
  unfold Qeq, Qdiv, Qmult, Qinv, inject_Z. simpl. lia.
Qed.

Lemma overlap_ratio_one words other :
  words ≠ ∅ → (Spec.overlap_ratio words other == 1)%Q ↔ words ⊆ other.
Proof.
  intros Hne. unfold Spec.overlap_ratio.
  assert (size words ≠ 0%nat) as Hpos by (now rewrite size_zero_empty).
  rewrite ratio_one by lia. split.
  - intros Hsize.
    assert (words ∩ other = words) as Heq.
    { apply set_subseteq_size_eq; [apply intersection_subseteq_l|lia]. }
    rewrite <- Heq. apply intersection_subseteq_r.
  - intros Hsub. now rewrite (subseteq_intersection_1_L words other Hsub).
Qed.

Lemma overlap_ratio_zero words other :
  words ≠ ∅ → (Spec.overlap_ratio words other == 0)%Q ↔ words ∩ other = ∅.
Proof.
  intros Hne. unfold Spec.overlap_ratio.
  assert (size words ≠ 0%nat) as Hpos by (now rewrite size_zero_empty).
  rewrite ratio_zero by lia. rewrite <- size_zero_empty. lia.
Qed.

Lemma blank_false_nonempty (s : string) : Spec.blank s = false → s ≠ "".
Proof. now intros H ->. Qed.

(** X8: for a non-empty answer, [ground_truth_coverage] of a ground
    truth that holds a word, and [context_utilization] of contexts that
    hold a word, are 1.0 exactly when every distinct lowercased word of
    the ground truth (of the contexts) is one of the answer's, and 0.0
    exactly when the answer shares no word with it. *)
Theorem overlap_metrics_extremes (ground_truth answer : string)
    (contexts : list string) :
  answer ≠ "" →
  let answer_words := Spec.distinct_lowercased_words answer in
  let gt_words := Spec.distinct_lowercased_words ground_truth in
  let context_words := Spec.distinct_lowercased_words (Py.join " " contexts) in
  (gt_words ≠ ∅ →
     ∃ v : Q,
       Enhanced.ground_truth_coverage ground_truth answer = Ok v
       ∧ ((v == 1)%Q ↔ gt_words ⊆ answer_words)
       ∧ ((v == 0)%Q ↔ gt_words ∩ answer_words = ∅))
  ∧ (context_words ≠ ∅ →
     ∃ v : Q,
       Enhanced.context_utilization contexts answer = Ok v
       ∧ ((v == 1)%Q ↔ context_words ⊆ answer_words)
       ∧ ((v == 0)%Q ↔ context_words ∩ answer_words = ∅)).
Proof.
  intros Ha answer_words gt_words context_words. split.
  - intros Hw.
    assert (ground_truth ≠ "") as Hg.
    { intros ->. apply Hw. reflexivity. }
    destruct (ground_truth_coverage_cases ground_truth answer)
      as (_ & Hratio & _).
    exists (Spec.overlap_ratio gt_words answer_words).
    split; [now apply Hratio|].
    split; [now apply overlap_ratio_one|now apply overlap_ratio_zero].
  - intros Hw.
    assert (contexts ≠ []) as Hc.
    { intros ->. apply Hw. reflexivity. }
    destruct (context_utilization_cases contexts answer) as (_ & Hratio).
    exists (Spec.overlap_ratio context_words answer_words).
    split; [now apply Hratio|].
    split; [now apply overlap_ratio_one|now apply overlap_ratio_zero].
Qed.

(** X8 on an answer that repeats the ground truth in other letter case
    and adds a word: the coverage is 1. *)
Lemma overlap_metrics_extremes_witness :
  "UP TO  $250,000 today" ≠ ""
  ∧ Spec.distinct_lowercased_words "Up to $250,000" ≠ ∅
  ∧ ∃ v : Q,
      Enhanced.ground_truth_coverage "Up to $250,000" "UP TO  $250,000 today"
      = Ok v
      ∧ (v == 1)%Q.
Proof.
  assert ("UP TO  $250,000 today" ≠ "") as Ha by discriminate.
  assert (Spec.distinct_lowercased_words "Up to $250,000" ≠ ∅) as Hw
    by (rewrite words_empty_blank; discriminate).
  split; [exact Ha|]. split; [exact Hw|].
  destruct (proj1 (overlap_metrics_extremes "Up to $250,000"
                     "UP TO  $250,000 today" [] Ha) Hw)
    as (v & Hv & Hone & _).
  exists v. split; [exact Hv|].
  apply Hone. apply (bool_decide_unpack _). vm_compute. exact I.
Defined.

End OverlapExtremes.

(** ** Letter case *)

Section LetterCase.

Lemma lower_char_idempotent (c : ascii) :
  Py.lower_char (Py.lower_char c) = Py.lower_char c.
Proof. destruct c as [[] [] [] [] [] [] [] []]; reflexivity. Qed.

Lemma lower_idempotent (s : string) : Py.lower (Py.lower s) = Py.lower s.
Proof.
  induction s as [|c s IH]; [reflexivity|].
  cbn [Py.lower]. now rewrite lower_char_idempotent, IH.
Qed.

Lemma truthy_lower (s : string) : Py.truthy (Py.lower s) = Py.truthy s.
Proof. now destruct s. Qed.

Lemma len_lower (s : string) : Py.len (Py.lower s) = Py.len s.
Proof.
  unfold Py.len. f_equal.
  induction s as [|c s IH]; [reflexivity|]. cbn. now rewrite IH.
Qed.

Lemma lower_app (s1 s2 : string) :
  Py.lower (s1 ++ s2) = Py.lower s1 ++ Py.lower s2.
Proof.
  induction s1 as [|c s1 IH]; [reflexivity|]. simpl. now rewrite IH.
Qed.

Lemma join_cons (sep p p' : string) (rest : list string) :
  Py.join sep (p :: p' :: rest) = p ++ sep ++ Py.join sep (p' :: rest).
Proof. reflexivity. Qed.

Lemma lower_join (parts : list string) :
  Py.lower (Py.join " " (List.map Py.lower parts))
  = Py.lower (Py.join " " parts).
Proof.
  induction parts as [|p rest IH]; [reflexivity|].
  destruct rest as [|p' rest]; [apply lower_idempotent|].
  cbn [List.map] in *. rewrite !join_cons, !lower_app, lower_idempotent.
  now rewrite IH.
Qed.

Lemma truthy_list_map {A B : Type} (f : A → B) (l : list A) :
  Py.truthy_list (List.map f l) = Py.truthy_list l.
Proof. now destruct l. Qed.

(** X9: the scoring ignores letter case: lowercasing the answer, the
    ground truth and the contexts leaves the outcome of
    [calculate_custom_metrics] unchanged, the dictionary or the
    exception. *)
Theorem scoring_ignores_case (question answer ground_truth : string)
    (contexts : list string) (response_time : Q) :
  Enhanced.calculate_custom_metrics question (Py.lower answer)
    (Py.lower ground_truth) (List.map Py.lower contexts) response_time
  = Enhanced.calculate_custom_metrics question answer ground_truth contexts
      response_time.
Proof.
  unfold Enhanced.calculate_custom_metrics, Enhanced.response_completeness,
    Enhanced.context_utilization, Enhanced.answer_specificity,
    Enhanced.ground_truth_coverage.
  now rewrite !truthy_lower, !len_lower, !lower_idempotent, lower_join,
    truthy_list_map.
Qed.

End LetterCase.

(** ** Specificity under added text *)

Section SpecificityGrowth.

Lemma append_cons (c : ascii) (s t : string) :
  String c s ++ t = String c (s ++ t).
Proof. reflexivity. Qed.

Lemma append_assoc (s1 s2 s3 : string) : (s1 ++ s2) ++ s3 = s1 ++ s2 ++ s3.
Proof.
  induction s1 as [|c s1 IH]; [reflexivity|].
  rewrite !append_cons. now rewrite IH.
Qed.

Lemma length_filter_mono {A : Type} (P Q : A → Prop)
    `{∀ x, Decision (P x)} `{∀ x, Decision (Q x)} (l : list A) :
  (∀ x, P x → Q x) →
  (List.length (filter P l) ≤ List.length (filter Q l))%nat.
Proof.
  intros Himp. induction l as [|x l IH]; [reflexivity|].
  rewrite !filter_cons.
  destruct (decide (P x)) as [HP|HP].
  - destruct (decide (Q x)) as [HQ|HQ]; [cbn; lia|].
    contradict HQ. now apply Himp.
  - destruct (decide (Q x)); cbn; lia.
Qed.

(** X10: text added before or after an answer never lowers its
    [answer_specificity]: every term found in the answer is found in the
    longer text. *)
Theorem specificity_grows_with_text (pre answer post : string) :
  ∃ v v' : Q,
    Enhanced.answer_specificity answer = Ok v
    ∧ Enhanced.answer_specificity (pre ++ answer ++ post) = Ok v'
    ∧ (v <= v')%Q.
Proof.
  unfold Enhanced.answer_specificity.
  rewrite !truediv_nonzero by discriminate.
  do 2 eexists. split; [reflexivity|]. split; [reflexivity|].
  apply Qmult_le_compat_r; [|discriminate].
  rewrite <- Zle_Qle. unfold Py.len_list. apply inj_le.
  apply length_filter_mono. intros term.
  rewrite !contains_spec, !lower_app.
  intros (p & q & ->).
  exists (Py.lower pre ++ p), (q ++ Py.lower post).
  now rewrite !append_assoc.
Qed.

End SpecificityGrowth.

(** ** The shape of the response-time curve *)

Section EfficiencyShape.

Lemma eight_over_antitone (t1 t2 : Q) :
  (0 < t1)%Q → (t1 <= t2)%Q → (8 / t2 <= 8 / t1)%Q.
Proof.
  intros Hpos Hle.
  assert (0 < t2)%Q as Hpos2 by lra.
  apply Qle_shift_div_l; [exact Hpos|].
  apply Qle_trans with (8 / t2 * t2)%Q.
  - apply Qmult_le_l; [|exact Hle].
    apply Qlt_shift_div_l; [exact Hpos2|lra].
  - rewrite Qmult_comm, Qmult_div_r; [lra|].
    intros E. rewrite E in Hpos2. discriminate.
Qed.

Lemma eight_over_small (t : Q) : (80 <= t)%Q → (8 / t <= 0.1)%Q.
Proof. intros Ht. apply Qle_shift_div_r; lra. Qed.

Lemma eight_over_below_one (t : Q) : (8 < t)%Q → (8 / t <= 1)%Q.
Proof. intros Ht. apply Qle_shift_div_r; lra. Qed.

(** X11: [response_efficiency] is positive for every response time of
    a microsecond or more (the resolution of the elapsed time that the
    request reports); it never decreases up to 8 seconds and never
    increases from 2 seconds on; and from 80 seconds on it stays at the
    floor 0.1. *)
Theorem response_efficiency_shape (t1 t2 : Q) :
  ∃ v1 v2 : Q,
    Enhanced.response_efficiency t1 = Ok v1
    ∧ Enhanced.response_efficiency t2 = Ok v2
    ∧ ((1 # 1000000 <= t1)%Q → (0 < v1)%Q)
    ∧ ((t1 <= t2)%Q → (t2 <= 8)%Q → (v1 <= v2)%Q)
    ∧ ((2 <= t1)%Q → (t1 <= t2)%Q → (v2 <= v1)%Q)
    ∧ ((80 <= t1)%Q → (v1 == 0.1)%Q).
Proof.
  destruct (response_efficiency_cases t1)
    as (v1 & E1 & Hz1 & Ho1 & Hf1 & Hs1).
  destruct (response_efficiency_cases t2)
    as (v2 & E2 & Hz2 & Ho2 & Hf2 & Hs2).
  pose proof (response_efficiency_range t1 v1 E1) as [Hlo1 Hhi1].
  pose proof (response_efficiency_range t2 v2 E2) as [Hlo2 Hhi2].
  exists v1, v2. split; [exact E1|]. split; [exact E2|].
  split; [|split; [|split]].
  - intros Hmicro.
    assert (0 < t1)%Q as Hpos
      by (apply Qlt_le_trans with (1 # 1000000)%Q; [reflexivity|exact Hmicro]).
    destruct (Qlt_le_dec t1 2) as [Hlt|Hge].
    + rewrite Hf1 by (split; assumption).
      apply Qlt_shift_div_l; lra.
    + destruct (Qlt_le_dec 8 t1) as [Hgt|Hle].
      * destruct (Hs1 Hgt) as [_ Hfloor]. lra.
      * rewrite Ho1 by (split; assumption). reflexivity.
  - intros Hle H8.
    destruct (Qlt_le_dec 0 t1) as [Hpos|Hneg]; [|rewrite Hz1 by exact Hneg; lra].
    destruct (Qlt_le_dec t2 2) as [Hlt2|Hge2].
    + rewrite Hf1, Hf2 by (split; lra).
      apply Qmult_le_compat_r; [exact Hle|discriminate].
    + rewrite (Ho2 (conj Hge2 H8)). exact Hhi1.
  - intros H2 Hle.
    destruct (Qlt_le_dec 8 t1) as [Hgt|Hle8].
    + destruct (Hs1 Hgt) as [Hv1 _].
      destruct (Hs2 ltac:(lra)) as [Hv2 _].
      rewrite Hv1, Hv2. apply Q.max_le_compat_l.
      apply eight_over_antitone; lra.
    + rewrite (Ho1 (conj H2 Hle8)). exact Hhi2.
  - intros H80. destruct (Hs1 ltac:(lra)) as [Hv1 _].
    rewrite Hv1. apply Q.max_l. now apply eight_over_small.
Qed.

(** X11 at 1 and 4 seconds, and at 20 and 100 seconds. *)
Lemma response_efficiency_shape_witness :
  (∃ v1 v2 : Q,
      Enhanced.response_efficiency 1 = Ok v1
      ∧ Enhanced.response_efficiency 4 = Ok v2 ∧ (0 < v1 <= v2)%Q)
  ∧ (∃ v1 v2 : Q,
        Enhanced.response_efficiency 100 = Ok v1
        ∧ Enhanced.response_efficiency 20 = Ok v2
        ∧ (v1 == 0.1)%Q ∧ (v1 <= v2)%Q).
Proof.
  split.
  - destruct (response_efficiency_shape 1 4)
      as (v1 & v2 & E1 & E2 & Hpos & Hup & _).
    exists v1, v2. repeat split; try assumption.
    + apply Hpos. discriminate.
    + apply Hup; discriminate.
  - destruct (response_efficiency_shape 100 20)
      as (v1 & v2 & E1 & E2 & _ & _ & _ & Hfloor).
    destruct (response_efficiency_shape 20 100)
      as (v2' & v1' & E2' & E1' & _ & _ & Hdown & _).
    rewrite E1 in E1'. rewrite E2 in E2'.
    injection E1' as <-. injection E2' as <-.
    exists v1, v2. repeat split; try assumption.
    + apply Hfloor. discriminate.
    + apply Hdown; discriminate.
Defined.

End EfficiencyShape.

(** ** Grades and wordings *)

Section GradeOrder.

(** X12: a higher score never gets a lower grade from [get_score_grade],
    in the order F, D, C, B, A, A+. *)
Theorem grade_is_monotone (score1 score2 : Q) :
  (score1 <= score2)%Q →
  (Spec.grade_rank (Enhanced.get_score_grade score1)
   ≤ Spec.grade_rank (Enhanced.get_score_grade score2))%nat.
Proof.
  intros Hle.
  pose proof (get_score_grade_band score1) as B1.
  pose proof (get_score_grade_band score2) as B2.
  destruct B1, B2; cbn; try lia; exfalso; lra.
Qed.

(** X12 at 0.65 and 0.85: a C and an A. *)
Lemma grade_is_monotone_witness :
  (0.65 <= 0.85)%Q
  ∧ Enhanced.get_score_grade 0.65 = "C"
  ∧ Enhanced.get_score_grade 0.85 = "A"
  ∧ (Spec.grade_rank "C" ≤ Spec.grade_rank "A")%nat.
Proof.
  assert (0.65 <= 0.85)%Q as Hle by discriminate.
  split; [exact Hle|]. split; [reflexivity|]. split; [reflexivity|].
  exact (grade_is_monotone 0.65 0.85 Hle).
Defined.

(** X13: the wording of [get_score_interpretation] follows the grade of
    [get_overall_grade] on every score: "Excellent" with A+ and A, "Good"
    with B, "Fair" with C, "Poor" with D and "Very Poor" with F; the
    metric's name plays no part. *)
Theorem interpretation_follows_grade (metric : string) (score : Q) :
  RagasReport.get_score_interpretation metric score
  = Spec.wording_of_grade (Ragas.get_overall_grade score).
Proof.
  unfold RagasReport.get_score_interpretation, Ragas.get_overall_grade.
  destruct (Py.ge score 0.9) eqn:H9.
  - apply ge_true in H9.
    assert (Py.ge score 0.8 = true) as -> by (apply ge_true; lra).
    reflexivity.
  - destruct (Py.ge score 0.8); [reflexivity|].
    destruct (Py.ge score 0.7); [reflexivity|].
    destruct (Py.ge score 0.6); [reflexivity|].
    destruct (Py.ge score 0.5); reflexivity.
Qed.

End GradeOrder.

(** ** More on the aggregation *)

Section AggregationProperties.

Local Open Scope R_scope.

Implicit Types detailed : list Enhanced.detailed_result.

Lemma metric_values_cases (metric_name : string) detailed :
  (Spec.lacks metric_name detailed
   ∧ Enhanced.metric_values metric_name detailed = Raise (KeyError metric_name))
  ∨ (¬ Spec.lacks metric_name detailed
     ∧ ∃ values, Enhanced.metric_values metric_name detailed = Ok values
                 ∧ Spec.values_of metric_name detailed values).
Proof.
  unfold Spec.lacks. induction detailed as [|r rest IH].
  - right. split; [intros H; inversion H|].
    exists []. split; [reflexivity|constructor].
  - cbn [Enhanced.metric_values]. unfold getitem.
    destruct (Enhanced.dr_custom_metrics r !! metric_name) as [q|] eqn:Hq.
    + cbn [mbind result_bind].
      destruct IH as [[Hex ->]|[Hall (vs & -> & Hvs)]].
      * left. split; [now apply Exists_cons_tl|reflexivity].
      * right. split.
        -- intros H. apply Exists_cons in H as [H|H]; [congruence|tauto].
        -- exists (Q2R q :: vs). split; [reflexivity|].
           constructor; [now rewrite Hq|exact Hvs].
    + left. split; [now apply Exists_cons_hd|reflexivity].
Qed.

Lemma aggregate_raises (names : list string) detailed :
  ∀ custom : gmap string R,
    (∃ metric_name, metric_name ∈ names ∧ Spec.lacks metric_name detailed) →
    ∃ metric_name,
      metric_name ∈ names
      ∧ Spec.lacks metric_name detailed
      ∧ Enhanced.aggregate names detailed custom = Raise (KeyError metric_name).
Proof.
  induction names as [|name rest IH]; intros custom (m & Hm & Hlack).
  - now apply elem_of_nil in Hm.
  - cbn [Enhanced.aggregate].
    destruct (metric_values_cases name detailed)
      as [[Hex ->]|[Hall (values & -> & _)]].
    + exists name. split; [constructor|]. split; [exact Hex|reflexivity].
    + cbn [mbind result_bind].
      apply elem_of_cons in Hm as [->|Hm]; [contradiction|].
      destruct (IH (<["std_" ++ name:=Np.std values]>
                    (<["avg_" ++ name:=Np.mean values]> custom)))%string
        as (m' & Hm' & Hlack' & Hraise); [now exists m|].
      exists m'. split; [now constructor|]. split; assumption.
Qed.

(** X14: when some detailed result lacks one of the five metrics, the
    aggregation raises [KeyError] for a metric that some result lacks, and
    [run_enhanced_evaluation], which catches it, returns [None] whatever
    the external evaluation yields. *)
Theorem aggregation_missing_metric detailed (metric_name : string) :
  metric_name ∈ Enhanced.metric_names →
  Spec.lacks metric_name detailed →
  (∃ missing,
      missing ∈ Enhanced.metric_names
      ∧ Spec.lacks missing detailed
      ∧ Enhanced.custom_results detailed = Raise (KeyError missing))
  ∧ ∀ evaluate : option (gmap string R),
      EnhancedReport.run_enhanced_evaluation evaluate detailed = None.
Proof.
  intros Hm Hlack.
  destruct (aggregate_raises Enhanced.metric_names detailed ∅)
    as (missing & Hin & Hlacks & Hraise); [now exists metric_name|].
  split; [now exists missing|].
  intros [ragas|]; [|reflexivity].
  unfold EnhancedReport.run_enhanced_evaluation, Enhanced.custom_results.
  now rewrite Hraise.
Qed.

(** The content of the aggregate, for well-formed items. *)
Lemma custom_results_content detailed :
  Forall Spec.well_formed detailed →
  ∃ v1 v2 v3 v4 v5 : list R,
    Enhanced.metric_values "response_completeness" detailed = Ok v1
    ∧ Enhanced.metric_values "context_utilization" detailed = Ok v2
    ∧ Enhanced.metric_values "response_efficiency" detailed = Ok v3
    ∧ Enhanced.metric_values "answer_specificity" detailed = Ok v4
    ∧ Enhanced.metric_values "ground_truth_coverage" detailed = Ok v5
    ∧ Enhanced.custom_results detailed
      = Ok (<["std_ground_truth_coverage" := Np.std v5]>
            (<["avg_ground_truth_coverage" := Np.mean v5]>
             (<["std_answer_specificity" := Np.std v4]>
              (<["avg_answer_specificity" := Np.mean v4]>
               (<["std_response_efficiency" := Np.std v3]>
                (<["avg_response_efficiency" := Np.mean v3]>
                 (<["std_context_utilization" := Np.std v2]>
                  (<["avg_context_utilization" := Np.mean v2]>
                   (<["std_response_completeness" := Np.std v1]>
                    (<["avg_response_completeness" := Np.mean v1]> ∅)))))))))).
Proof.
  intros Hwf.
  assert (∀ m, m ∈ Enhanced.metric_names →
            ∃ values, Enhanced.metric_values m detailed = Ok values) as Hvalues.
  { intros m Hm.
    destruct (metric_values_well_formed m detailed Hm Hwf) as (vs & Hvs & _).
    now exists vs. }
  destruct (Hvalues "response_completeness") as (v1 & E1); [repeat constructor|].
  destruct (Hvalues "context_utilization") as (v2 & E2); [repeat constructor|].
  destruct (Hvalues "response_efficiency") as (v3 & E3); [repeat constructor|].
  destruct (Hvalues "answer_specificity") as (v4 & E4); [repeat constructor|].
  destruct (Hvalues "ground_truth_coverage") as (v5 & E5); [repeat constructor|].
  exists v1, v2, v3, v4, v5. repeat (split; [assumption|]).
  unfold Enhanced.custom_results, Enhanced.metric_names.
  cbn [Enhanced.aggregate].
  rewrite E1. cbn [mbind result_bind]. rewrite E2. cbn [mbind result_bind].
  rewrite E3. cbn [mbind result_bind]. rewrite E4. cbn [mbind result_bind].
  rewrite E5. reflexivity.
Qed.

Lemma sum_bounds (values : list R) (lo hi : R) :
  Forall (λ x, lo <= x <= hi) values →
  INR (List.length values) * lo <= Np.sum values
  <= INR (List.length values) * hi.
Proof.
  induction 1 as [|x l [Hlo Hhi] _ [IHlo IHhi]].
  - cbn. Lra.lra.
  - change (List.length (x :: l)) with (S (List.length l)).
    rewrite S_INR. cbn [Np.sum fold_right] in *. fold (Np.sum l).
    split; Lra.lra.
Qed.

Lemma mean_bounds (values : list R) (lo hi : R) :
  values ≠ [] →
  Forall (λ x, lo <= x <= hi) values →
  lo <= Np.mean values <= hi.
Proof.
  intros Hne Hall. destruct (sum_bounds values lo hi Hall) as [Hlo Hhi].
  assert (0 < INR (List.length values)) as Hpos
    by (apply lt_0_INR; destruct values; [contradiction|cbn; lia]).
  unfold Np.mean. split.
  - apply Rmult_le_reg_r with (INR (List.length values)); [exact Hpos|].
    unfold Rdiv. rewrite Rmult_assoc, Rinv_l, Rmult_1_r by Lra.lra. Lra.lra.
  - apply Rmult_le_reg_r with (INR (List.length values)); [exact Hpos|].
    unfold Rdiv. rewrite Rmult_assoc, Rinv_l, Rmult_1_r by Lra.lra. Lra.lra.
Qed.

End AggregationProperties.

Section AggregationOfARun.

Local Open Scope R_scope.

Implicit Types detailed : list Enhanced.detailed_result.

(** X14 on a list whose second item holds one metric only. *)
Lemma aggregation_missing_metric_witness :
  "context_utilization" ∈ Enhanced.metric_names
  ∧ Spec.lacks "context_utilization" [sample_result 0.2; partial_result]
  ∧ Enhanced.custom_results [sample_result 0.2; partial_result]
    = Raise (KeyError "context_utilization")
  ∧ EnhancedReport.run_enhanced_evaluation (Some ∅)
      [sample_result 0.2; partial_result] = None.
Proof.
  assert ("context_utilization" ∈ Enhanced.metric_names) as Hm
    by (repeat constructor).
  assert (Spec.lacks "context_utilization" [sample_result 0.2; partial_result])
    as Hlack by (apply Exists_cons_tl, Exists_cons_hd; reflexivity).
  split; [exact Hm|]. split; [exact Hlack|].
  split; [vm_compute; reflexivity|].
  exact (proj2 (aggregation_missing_metric _ _ Hm Hlack) (Some ∅)).
Defined.

Lemma metric_values_bounded (metric_name : string) detailed :
  Forall (λ r, ∀ (key : string) (v : Q),
            Enhanced.dr_custom_metrics r !! key = Some v → (0 <= v <= 1)%Q)
         detailed →
  ∀ values,
    Enhanced.metric_values metric_name detailed = Ok values →
    Forall (λ x, 0 <= x <= 1) values.
Proof.
  induction 1 as [|r rest Hr _ IH]; intros values; cbn [Enhanced.metric_values].
  - intros [= <-]. constructor.
  - unfold getitem.
    destruct (Enhanced.dr_custom_metrics r !! metric_name) as [q|] eqn:Hq;
      cbn [mbind result_bind]; [|discriminate].
    destruct (Enhanced.metric_values metric_name rest) as [vs|e];
      cbn [mbind result_bind mret result_ret]; [|discriminate].
    intros [= <-]. constructor; [|now apply IH].
    destruct (Hr _ _ Hq) as [Hlo Hhi].
    apply Qle_Rle in Hlo, Hhi.
    rewrite RMicromega.Q2R_0 in Hlo. rewrite RMicromega.Q2R_1 in Hhi.
    split; assumption.
Qed.

Lemma std_nonneg (values : list R) : 0 <= Np.std values.
Proof. apply sqrt_pos. Qed.

Ltac read_entry :=
  repeat (rewrite lookup_insert_ne by discriminate); apply lookup_insert_eq.

(** X15: when [prepare_enhanced_dataset] returns at least one detailed
    result, the aggregation of [run_enhanced_evaluation] raises nothing:
    it yields exactly the ten entries [avg_<metric>] and [std_<metric>],
    every average between 0 and 1 and no deviation negative; and, when
    the external evaluation yields scores, [run_enhanced_evaluation]
    returns them with this aggregate and the same detailed results. *)
Theorem prepared_results_aggregate {World : Type}
    (post : string → World → outcome * World) (questions : list qa)
    (w : World) (data : ragas_data) detailed (w' : World) :
  Enhanced.prepare_enhanced_dataset post questions w = Ok (data, detailed, w') →
  detailed ≠ [] →
  ∃ custom : gmap string R,
    Enhanced.custom_results detailed = Ok custom
    ∧ dom custom
      = list_to_set
          (List.map (String.append "avg_") Enhanced.metric_names
           ++ List.map (String.append "std_") Enhanced.metric_names)%list
    ∧ (∀ metric_name, metric_name ∈ Enhanced.metric_names →
         ∃ avg std : R,
           custom !! ("avg_" ++ metric_name)%string = Some avg
           ∧ 0 <= avg <= 1
           ∧ custom !! ("std_" ++ metric_name)%string = Some std
           ∧ 0 <= std)
    ∧ ∀ ragas : gmap string R,
        ∃ results,
          EnhancedReport.run_enhanced_evaluation (Some ragas) detailed
          = Some results
          ∧ EnhancedReport.ragas_results results = ragas
          ∧ EnhancedReport.custom_metrics results = custom
          ∧ EnhancedReport.detailed_results_of results = detailed.
Proof.
  intros Hrun Hne.
  pose proof (detailed_results_are_scored_rows post questions w data detailed
                w' Hrun) as Hrows.
  assert (Forall Spec.well_formed detailed) as Hwf
    by (eapply Forall_impl; [exact Hrows|]; now intros r (_ & H & _)).
  assert (Forall (λ r, ∀ (key : string) (v : Q),
                    Enhanced.dr_custom_metrics r !! key = Some v →
                    (0 <= v <= 1)%Q) detailed) as Hbounds
    by (eapply Forall_impl; [exact Hrows|]; now intros r (_ & _ & H)).
  destruct (custom_results_content detailed Hwf)
    as (v1 & v2 & v3 & v4 & v5 & E1 & E2 & E3 & E4 & E5 & Hcustom).
  assert (∀ m vs, Enhanced.metric_values m detailed = Ok vs →
            0 <= Np.mean vs <= 1) as Hmean.
  { intros m vs Hvs. apply mean_bounds.
    - apply metric_values_length in Hvs.
      destruct vs; [|discriminate]. destruct detailed; [contradiction|discriminate].
    - now apply (metric_values_bounded m detailed Hbounds). }
  eexists. split; [exact Hcustom|]. split; [|split].
  - rewrite !dom_insert_L, dom_empty_L. cbn. set_solver.
  - intros m Hm. unfold Enhanced.metric_names in Hm.
    repeat (apply elem_of_cons in Hm as [->|Hm]);
      try (now apply elem_of_nil in Hm); cbn [append].
    + exists (Np.mean v1), (Np.std v1).
      split; [read_entry|]. split; [now apply (Hmean _ _ E1)|].
      split; [read_entry|apply std_nonneg].
    + exists (Np.mean v2), (Np.std v2).
      split; [read_entry|]. split; [now apply (Hmean _ _ E2)|].
      split; [read_entry|apply std_nonneg].
    + exists (Np.mean v3), (Np.std v3).
      split; [read_entry|]. split; [now apply (Hmean _ _ E3)|].
      split; [read_entry|apply std_nonneg].
    + exists (Np.mean v4), (Np.std v4).
      split; [read_entry|]. split; [now apply (Hmean _ _ E4)|].
      split; [read_entry|apply std_nonneg].
    + exists (Np.mean v5), (Np.std v5).
      split; [read_entry|]. split; [now apply (Hmean _ _ E5)|].
      split; [read_entry|apply std_nonneg].
  - intros ragas. unfold EnhancedReport.run_enhanced_evaluation.
    rewrite Hcustom. eexists. repeat split.
Qed.

End AggregationOfARun.

Section SingleResult.

Local Open Scope R_scope.

Implicit Types detailed : list Enhanced.detailed_result.

(** X15 on the small run. *)
Lemma prepared_results_aggregate_witness :
  ∃ data detailed w' custom,
    Enhanced.prepare_enhanced_dataset scripted sample_questions sample_world
    = Ok (data, detailed, w')
    ∧ detailed ≠ []
    ∧ Enhanced.custom_results detailed = Ok custom
    ∧ size custom = 10%nat.
Proof.
  destruct (Enhanced.prepare_enhanced_dataset scripted sample_questions
              sample_world) as [[[data detailed] w']|e] eqn:Hrun;
    [|vm_compute in Hrun; discriminate].
  assert (detailed ≠ []) as Hne.
  { intros ->. vm_compute in Hrun. discriminate. }
  destruct (prepared_results_aggregate scripted sample_questions sample_world
              data detailed w' Hrun Hne) as (custom & Hcustom & Hdom & _).
  exists data, detailed, w', custom.
  split; [reflexivity|]. split; [exact Hne|]. split; [exact Hcustom|].
  rewrite <- size_dom, Hdom. vm_compute. reflexivity.
Defined.

Lemma mean_single (x : R) : Np.mean [x] = x.
Proof. unfold Np.mean. cbn. Lra.lra. Qed.

Lemma std_single (x : R) : Np.std [x] = 0.
Proof.
  unfold Np.std. rewrite mean_single. cbn [List.map].
  replace (Rabs (x - x) ^ 2) with 0
    by (rewrite Rminus_diag, Rabs_R0; cbn; Lra.lra).
  rewrite mean_single. apply sqrt_0.
Qed.

Lemma metric_values_single (metric_name : string) (v : Q)
    (r : Enhanced.detailed_result) :
  Enhanced.dr_custom_metrics r !! metric_name = Some v →
  Enhanced.metric_values metric_name [r] = Ok [Q2R v].
Proof.
  intros Hr. cbn [Enhanced.metric_values]. unfold getitem. now rewrite Hr.
Qed.

Ltac read_entry :=
  repeat (rewrite lookup_insert_ne by discriminate); apply lookup_insert_eq.

(** X16: in a run with a single detailed result, the aggregate's
    average of a metric is the value that this result has of it, and its
    standard deviation is 0. *)
Theorem single_result_no_deviation (r : Enhanced.detailed_result)
    (metric_name : string) (v : Q) :
  Spec.well_formed r →
  metric_name ∈ Enhanced.metric_names →
  Enhanced.dr_custom_metrics r !! metric_name = Some v →
  ∃ custom : gmap string R,
    Enhanced.custom_results [r] = Ok custom
    ∧ custom !! ("avg_" ++ metric_name)%string = Some (Q2R v)
    ∧ custom !! ("std_" ++ metric_name)%string = Some 0.
Proof.
  intros Hwf Hm Hv.
  destruct (custom_results_content [r] ltac:(now constructor))
    as (v1 & v2 & v3 & v4 & v5 & E1 & E2 & E3 & E4 & E5 & Hcustom).
  pose proof (metric_values_single metric_name v r Hv) as Hvalues.
  pose proof (mean_single (Q2R v)) as Hmean.
  pose proof (std_single (Q2R v)) as Hstd.
  eexists. split; [exact Hcustom|].
  unfold Enhanced.metric_names in Hm.
  repeat (apply elem_of_cons in Hm as [->|Hm]);
    try (now apply elem_of_nil in Hm); cbn [append];
    rewrite <- Hmean, <- Hstd;
    [ rewrite E1 in Hvalues | rewrite E2 in Hvalues | rewrite E3 in Hvalues
    | rewrite E4 in Hvalues | rewrite E5 in Hvalues ];
    injection Hvalues as <-; split; read_entry.
Qed.

(** X16 on a single detailed result whose metrics are all 0.4. *)
Lemma single_result_no_deviation_witness :
  Spec.well_formed (sample_result 0.4)
  ∧ ∃ custom : gmap string R,
      Enhanced.custom_results [sample_result 0.4] = Ok custom
      ∧ custom !! "avg_response_efficiency" = Some (Q2R 0.4)
      ∧ custom !! "std_response_efficiency" = Some 0.
Proof.
  assert (Spec.well_formed (sample_result 0.4)) as Hwf.
  { unfold Spec.well_formed. cbn [sample_result Enhanced.dr_custom_metrics].
    rewrite !dom_insert_L, dom_empty_L. cbn. set_solver. }
  assert ("response_efficiency" ∈ Enhanced.metric_names) as Hm
    by (repeat constructor).
  split; [exact Hwf|].
  apply (single_result_no_deviation (sample_result 0.4)
           "response_efficiency" 0.4 Hwf Hm).
  now apply sample_result_metric.
Defined.

End SingleResult.

(** ** The analysis by category *)

Section Categories.

Implicit Types detailed : list Enhanced.detailed_result.
Implicit Types analysis : gmap string (list Enhanced.detailed_result).

(** One turn of the grouping loop. *)
Definition group_step analysis (result : Enhanced.detailed_result) :=
  let category := Enhanced.dr_category result in
  alter (λ results, (results ++ [result])%list) category
    match analysis !! category with
    | None => <[category := []]> analysis
    | Some _ => analysis
    end.

Lemma group_step_insert analysis (result : Enhanced.detailed_result) :
  group_step analysis result
  = <[Enhanced.dr_category result :=
        (default [] (analysis !! Enhanced.dr_category result) ++ [result])%list]>
      analysis.
Proof.
  unfold group_step. apply map_eq. intros c.
  destruct (analysis !! Enhanced.dr_category result) as [g|] eqn:Hg.
  - destruct (decide (Enhanced.dr_category result = c)) as [<-|Hne].
    + now rewrite lookup_alter_eq, lookup_insert_eq, Hg.
    + now rewrite lookup_alter_ne, lookup_insert_ne.
  - destruct (decide (Enhanced.dr_category result = c)) as [<-|Hne].
    + now rewrite lookup_alter_eq, !lookup_insert_eq.
    + now rewrite lookup_alter_ne, !lookup_insert_ne.
Qed.

Lemma category_analysis_snoc detailed (result : Enhanced.detailed_result) :
  EnhancedReport.category_analysis (detailed ++ [result])
  = group_step (EnhancedReport.category_analysis detailed) result.
Proof. unfold EnhancedReport.category_analysis. now rewrite foldl_snoc. Qed.



Lemma total_count_step analysis (result : Enhanced.detailed_result) :
  Spec.total_count (EnhancedReport.score_category
                    <$> group_step analysis result)
  = Spec.total_count (EnhancedReport.score_category <$> analysis) + 1.
Proof.
  rewrite group_step_insert. unfold Spec.total_count.
  rewrite !map_fold_fmap.
  set (f := λ (_ : string) (g : list Enhanced.detailed_result) (total : Z),
              EnhancedReport.count (EnhancedReport.score_category g) + total).
  assert (∀ (m : gmap string (list Enhanced.detailed_result)) j1 j2 z1 z2 y,
            j1 ≠ j2 → m !! j1 = Some z1 → m !! j2 = Some z2 →
            f j1 z1 (f j2 z2 y) = f j2 z2 (f j1 z1 y)) as Hcomm
    by (intros; unfold f; lia).
  assert (∀ g, EnhancedReport.count
                 (EnhancedReport.score_category (g ++ [result])%list)
               = EnhancedReport.count (EnhancedReport.score_category g) + 1)
    as Hcount.
  { intros g. cbn. unfold Py.len_list. rewrite length_app. cbn. lia. }
  set (c := Enhanced.dr_category result).
  change (map_fold f 0 (<[c:=(default [] (analysis !! c) ++ [result])%list]>
                        analysis)
          = map_fold f 0 analysis + 1).
  destruct (analysis !! c) as [g|] eqn:Hg; cbn [default].
  - rewrite <- insert_delete_eq.
    rewrite map_fold_insert_L; [|apply Hcomm|apply lookup_delete_eq].
    rewrite (map_fold_delete_L f 0 c g analysis (Hcomm analysis) Hg).
    unfold f at 1 3. rewrite Hcount. unfold Datatypes.id. lia.
  - rewrite map_fold_insert_L; [|apply Hcomm|exact Hg].
    unfold f at 1. rewrite (Hcount []).
    change (EnhancedReport.count (EnhancedReport.score_category [])) with 0.
    lia.
Qed.

(** X18: the counts of the analysis by category add up to the number of
    detailed results: every detailed result is counted in one category
    and one only. *)
Theorem category_counts_add_up detailed :
  Spec.total_count (EnhancedReport.category_scores detailed)
  = Z.of_nat (List.length detailed).
Proof.
  unfold EnhancedReport.category_scores.
  induction detailed as [|result detailed IH] using rev_ind; [reflexivity|].
  rewrite category_analysis_snoc, total_count_step, IH, length_app.
  cbn. lia.
Qed.

End Categories.

(** ** The overall scores of the report *)

Section OverallScores.

Local Open Scope R_scope.

Implicit Types detailed : list Enhanced.detailed_result.


Definition totals_step (metric : string) (value : R) (totals : R * Z) : R * Z :=
  if Py.starts_with "avg_" metric
  then (totals.1 + value, (totals.2 + 1)%Z)
  else totals.

Lemma totals_step_comm (j1 j2 : string) (z1 z2 : R) (y : R * Z) :
  totals_step j1 z1 (totals_step j2 z2 y)
  = totals_step j2 z2 (totals_step j1 z1 y).
Proof.
  unfold totals_step.
  destruct (Py.starts_with "avg_" j1), (Py.starts_with "avg_" j2);
    try reflexivity.
  cbn. f_equal; first [Lra.lra|lia].
Qed.

Lemma custom_totals_insert (custom : gmap string R) (key : string) (value : R) :
  custom !! key = None →
  EnhancedReport.custom_totals (<[key := value]> custom)
  = totals_step key value (EnhancedReport.custom_totals custom).
Proof.
  intros Hfresh. unfold EnhancedReport.custom_totals.
  fold totals_step.
  change (map_fold totals_step (0, 0%Z) (<[key:=value]> custom)
          = totals_step key value (map_fold totals_step (0, 0%Z) custom)).
  apply map_fold_insert_L; [|exact Hfresh].
  intros. apply totals_step_comm.
Qed.

Ltac fresh_key :=
  repeat (rewrite lookup_insert_ne by discriminate); apply lookup_empty.

(** The two totals on the aggregate of a run. *)
Lemma custom_totals_of_aggregate (v1 v2 v3 v4 v5 : list R) :
  EnhancedReport.custom_totals
    (<["std_ground_truth_coverage" := Np.std v5]>
     (<["avg_ground_truth_coverage" := Np.mean v5]>
      (<["std_answer_specificity" := Np.std v4]>
       (<["avg_answer_specificity" := Np.mean v4]>
        (<["std_response_efficiency" := Np.std v3]>
         (<["avg_response_efficiency" := Np.mean v3]>
          (<["std_context_utilization" := Np.std v2]>
           (<["avg_context_utilization" := Np.mean v2]>
            (<["std_response_completeness" := Np.std v1]>
             (<["avg_response_completeness" := Np.mean v1]> ∅))))))))))
  = (Np.mean v1 + Np.mean v2 + Np.mean v3 + Np.mean v4 + Np.mean v5, 5%Z).
Proof.
  repeat (rewrite custom_totals_insert by fresh_key).
  unfold EnhancedReport.custom_totals. rewrite map_fold_empty.
  unfold totals_step. cbn. f_equal. Lra.lra.
Qed.

End OverallScores.

Section ReportScores.

Local Open Scope R_scope.

Implicit Types detailed : list Enhanced.detailed_result.

Lemma custom_overall_of_aggregate (metrics : list string)
    (results : EnhancedReport.evaluation) (v1 v2 v3 v4 v5 : list R) :
  EnhancedReport.custom_metrics results
  = <["std_ground_truth_coverage" := Np.std v5]>
    (<["avg_ground_truth_coverage" := Np.mean v5]>
     (<["std_answer_specificity" := Np.std v4]>
      (<["avg_answer_specificity" := Np.mean v4]>
       (<["std_response_efficiency" := Np.std v3]>
        (<["avg_response_efficiency" := Np.mean v3]>
         (<["std_context_utilization" := Np.std v2]>
          (<["avg_context_utilization" := Np.mean v2]>
           (<["std_response_completeness" := Np.std v1]>
            (<["avg_response_completeness" := Np.mean v1]> ∅))))))))) →
  EnhancedReport.custom_overall (EnhancedReport.overall metrics results)
  = (Np.mean v1 + Np.mean v2 + Np.mean v3 + Np.mean v4 + Np.mean v5) / 5.
Proof.
  intros Hcustom. unfold EnhancedReport.overall.
  cbn [EnhancedReport.custom_overall].
  now rewrite Hcustom, custom_totals_of_aggregate.
Qed.

End ReportScores.

Section CombinedScore.

Local Open Scope R_scope.

Implicit Types detailed : list Enhanced.detailed_result.

Lemma ragas_scores_fold_none (metrics : list string) (ragas : gmap string R) :
  (∀ metric_name, metric_name ∈ metrics → ragas !! metric_name = None) →
  ∀ scores : gmap string R,
    foldl (λ scores metric_name,
             match ragas !! metric_name with
             | Some score => <[metric_name := score]> scores
             | None => scores
             end) scores metrics = scores.
Proof.
  induction metrics as [|m rest IH]; intros Hnone scores; [reflexivity|].
  cbn [foldl]. rewrite (Hnone m) by constructor.
  apply IH. intros k Hk. apply Hnone. now constructor.
Qed.

Lemma ragas_scores_fold_from (metrics : list string) (ragas : gmap string R) :
  ∀ scores : gmap string R,
    (∀ k v, scores !! k = Some v → ragas !! k = Some v) →
    ∀ k v,
      foldl (λ scores metric_name,
               match ragas !! metric_name with
               | Some score => <[metric_name := score]> scores
               | None => scores
               end) scores metrics !! k = Some v →
      ragas !! k = Some v.
Proof.
  induction metrics as [|m rest IH]; intros scores Hinv k v; [apply Hinv|].
  cbn [foldl]. apply IH. clear k v. intros k v.
  destruct (ragas !! m) as [score|] eqn:Hm; [|apply Hinv].
  destruct (decide (m = k)) as [<-|Hne].
  - rewrite lookup_insert_eq. now intros [= <-].
  - rewrite lookup_insert_ne by exact Hne. apply Hinv.
Qed.

(** X20: when the scores of the external evaluation hold none of the
    metrics of the report, the report takes 0 for the RAGAS overall score
    and the combined overall score is half the custom overall score. *)
Theorem no_ragas_score_halves_combined (metrics : list string)
    (results : EnhancedReport.evaluation) :
  (∀ metric_name, metric_name ∈ metrics →
     EnhancedReport.ragas_results results !! metric_name = None) →
  EnhancedReport.ragas_overall (EnhancedReport.overall metrics results) = 0
  ∧ EnhancedReport.combined_overall (EnhancedReport.overall metrics results)
    = EnhancedReport.custom_overall (EnhancedReport.overall metrics results) / 2.
Proof.
  intros Hnone. unfold EnhancedReport.overall, EnhancedReport.ragas_scores.
  cbn [EnhancedReport.ragas_overall EnhancedReport.combined_overall
       EnhancedReport.custom_overall].
  rewrite (ragas_scores_fold_none metrics _ Hnone ∅).
  change (RagasReport.truthy_dict (∅ : gmap string R)) with false.
  cbn iota. split; [reflexivity|].
  now rewrite Rplus_0_l.
Qed.

(** The mean of a metric over scored items. *)
Lemma metric_mean_bounded (metric_name : string) detailed (values : list R) :
  detailed ≠ [] →
  Forall (λ r, ∀ (key : string) (v : Q),
            Enhanced.dr_custom_metrics r !! key = Some v → (0 <= v <= 1)%Q)
         detailed →
  Enhanced.metric_values metric_name detailed = Ok values →
  0 <= Np.mean values <= 1.
Proof.
  intros Hne Hbounds Hvalues. apply mean_bounds.
  - apply metric_values_length in Hvalues.
    destruct values; [|discriminate].
    destruct detailed; [contradiction|discriminate].
  - now apply (metric_values_bounded metric_name detailed Hbounds).
Qed.

(** X21: when [prepare_enhanced_dataset] returns at least one detailed
    result and every score of the external evaluation lies between 0 and
    1, the three overall scores of the report, RAGAS, custom and
    combined, lie between 0 and 1. *)
Theorem overall_scores_bounded {World : Type}
    (post : string → World → outcome * World) (questions : list qa)
    (w : World) (data : ragas_data) detailed (w' : World)
    (metrics : list string) (ragas : gmap string R) :
  Enhanced.prepare_enhanced_dataset post questions w = Ok (data, detailed, w') →
  detailed ≠ [] →
  (∀ k v, ragas !! k = Some v → 0 <= v <= 1) →
  ∃ results,
    EnhancedReport.run_enhanced_evaluation (Some ragas) detailed = Some results
    ∧ 0 <= EnhancedReport.ragas_overall
             (EnhancedReport.overall metrics results) <= 1
    ∧ 0 <= EnhancedReport.custom_overall
             (EnhancedReport.overall metrics results) <= 1
    ∧ 0 <= EnhancedReport.combined_overall
             (EnhancedReport.overall metrics results) <= 1.
Proof.
  intros Hrun Hne Hragas.
  pose proof (detailed_results_are_scored_rows post questions w data detailed
                w' Hrun) as Hrows.
  assert (Forall Spec.well_formed detailed) as Hwf
    by (eapply Forall_impl; [exact Hrows|]; now intros r (_ & H & _)).
  assert (Forall (λ r, ∀ (key : string) (v : Q),
                    Enhanced.dr_custom_metrics r !! key = Some v →
                    (0 <= v <= 1)%Q) detailed) as Hbounds
    by (eapply Forall_impl; [exact Hrows|]; now intros r (_ & _ & H)).
  destruct (custom_results_content detailed Hwf)
    as (v1 & v2 & v3 & v4 & v5 & E1 & E2 & E3 & E4 & E5 & Hcustom).
  eexists. split.
  { unfold EnhancedReport.run_enhanced_evaluation. rewrite Hcustom.
    reflexivity. }
  match goal with
  | |- context [EnhancedReport.overall metrics ?r] => set (results := r)
  end.
  assert (0 <= EnhancedReport.custom_overall
                 (EnhancedReport.overall metrics results) <= 1) as Hc.
  { rewrite (custom_overall_of_aggregate metrics results v1 v2 v3 v4 v5)
      by reflexivity.
    pose proof (metric_mean_bounded _ _ _ Hne Hbounds E1).
    pose proof (metric_mean_bounded _ _ _ Hne Hbounds E2).
    pose proof (metric_mean_bounded _ _ _ Hne Hbounds E3).
    pose proof (metric_mean_bounded _ _ _ Hne Hbounds E4).
    pose proof (metric_mean_bounded _ _ _ Hne Hbounds E5).
    Lra.lra. }
  assert (0 <= EnhancedReport.ragas_overall
                 (EnhancedReport.overall metrics results) <= 1) as Hr.
  { unfold EnhancedReport.overall. cbn [EnhancedReport.ragas_overall].
    set (scores := EnhancedReport.ragas_scores metrics
                     (EnhancedReport.ragas_results results)).
    destruct (RagasReport.truthy_dict scores) eqn:Ht; [|Lra.lra].
    apply mean_bounds.
    - intros Hnil. apply fmap_nil_inv, map_to_list_empty_iff in Hnil.
      rewrite Hnil in Ht. discriminate.
    - apply Forall_fmap, Forall_forall. intros [k v] Hkv. cbn.
      apply elem_of_map_to_list in Hkv. apply (Hragas k).
      now apply (ragas_scores_fold_from metrics ragas ∅). }
  split; [exact Hr|]. split; [exact Hc|].
  unfold EnhancedReport.overall in *.
  cbn [EnhancedReport.ragas_overall EnhancedReport.custom_overall
       EnhancedReport.combined_overall] in *.
  Lra.lra.
Qed.

End CombinedScore.

Section CombinedScoreWitnesses.

Local Open Scope R_scope.

(** X20 on an evaluation without any RAGAS score. *)
Lemma no_ragas_score_halves_combined_witness :
  let results :=
    {| EnhancedReport.ragas_results := ∅;
       EnhancedReport.custom_metrics := {[ "avg_response_efficiency" := 0.5 ]};
       EnhancedReport.category_analysis_of := ∅;
       EnhancedReport.detailed_results_of := [] |} in
  (∀ metric_name, metric_name ∈ ["faithfulness"; "answer_relevancy"] →
     EnhancedReport.ragas_results results !! metric_name = None)
  ∧ EnhancedReport.ragas_overall
      (EnhancedReport.overall ["faithfulness"; "answer_relevancy"] results) = 0
  ∧ EnhancedReport.combined_overall
      (EnhancedReport.overall ["faithfulness"; "answer_relevancy"] results)
    = EnhancedReport.custom_overall
        (EnhancedReport.overall ["faithfulness"; "answer_relevancy"] results)
      / 2.
Proof.
  intros results.
  assert (∀ metric_name, metric_name ∈ ["faithfulness"; "answer_relevancy"] →
            EnhancedReport.ragas_results results !! metric_name = None) as Hnone
    by (intros; apply lookup_empty).
  split; [exact Hnone|].
  exact (no_ragas_score_halves_combined _ results Hnone).
Defined.

(** X21 on the small run, with one RAGAS score of 0.5. *)
Lemma overall_scores_bounded_witness :
  ∃ data detailed w' results,
    Enhanced.prepare_enhanced_dataset scripted sample_questions sample_world
    = Ok (data, detailed, w')
    ∧ detailed ≠ []
    ∧ EnhancedReport.run_enhanced_evaluation
        (Some {[ "faithfulness" := 0.5 ]}) detailed = Some results
    ∧ 0 <= EnhancedReport.combined_overall
             (EnhancedReport.overall ["faithfulness"] results) <= 1.
Proof.
  destruct (Enhanced.prepare_enhanced_dataset scripted sample_questions
              sample_world) as [[[data detailed] w']|e] eqn:Hrun;
    [|vm_compute in Hrun; discriminate].
  assert (detailed ≠ []) as Hne.
  { intros ->. vm_compute in Hrun. discriminate. }
  assert (∀ (k : string) (v : R),
            ({[ "faithfulness" := 0.5 ]} : gmap string R) !! k = Some v →
            0 <= v <= 1) as Hragas.
  { intros k v Hkv. apply lookup_singleton_Some in Hkv as [_ <-]. Lra.lra. }
  destruct (overall_scores_bounded scripted sample_questions sample_world
              data detailed w' ["faithfulness"] _ Hrun Hne Hragas)
    as (results & Hres & _ & _ & Hcombined).
  exists data, detailed, w', results.
  split; [reflexivity|]. split; [exact Hne|]. split; [exact Hres|exact Hcombined].
Defined.

End CombinedScoreWitnesses.

(** ** The report of the second script *)

Section RagasReportProperties.

Implicit Types scores : list (string * Q).

Lemma dict_set_keys scores (key : string) (v : Q) (k : string) :
  k ∈ (RagasReport.dict_set scores key v).*1 ↔ k = key ∨ k ∈ scores.*1.
Proof.
  induction scores as [|[k0 x] rest IH]; cbn.
  - rewrite list_elem_of_singleton, elem_of_nil. tauto.
  - destruct (String.eqb k0 key) eqn:E.
    + apply String.eqb_eq in E. subst k0. cbn. rewrite !elem_of_cons. tauto.
    + cbn. rewrite !elem_of_cons, IH. tauto.
Qed.

Lemma dict_set_nodup scores (key : string) (v : Q) :
  NoDup scores.*1 → NoDup (RagasReport.dict_set scores key v).*1.
Proof.
  induction scores as [|[k0 x] rest IH]; cbn.
  - intros _. apply NoDup_singleton.
  - intros Hnd. apply NoDup_cons in Hnd as [Hnotin Hnd].
    destruct (String.eqb k0 key) eqn:E; cbn.
    + now apply NoDup_cons.
    + apply String.eqb_neq in E. apply NoDup_cons. split; [|now apply IH].
      rewrite dict_set_keys. intros [->|Hin]; [congruence|contradiction].
Qed.

Lemma dict_set_entries (results : gmap string Q) scores (key : string) (v : Q) :
  results !! key = Some v →
  Forall (λ entry, results !! entry.1 = Some entry.2) scores →
  Forall (λ entry, results !! entry.1 = Some entry.2)
         (RagasReport.dict_set scores key v).
Proof.
  intros Hkey. induction 1 as [|[k0 x] rest Hhd Htl IH]; cbn.
  - now repeat constructor.
  - destruct (String.eqb k0 key) eqn:E.
    + apply String.eqb_eq in E. subst k0. now constructor.
    + now constructor.
Qed.

(** What the loop over the metrics collects, from any state. *)
Lemma metrics_scores_fold (results : gmap string Q) (metrics : list string) :
  ∀ scores,
    NoDup scores.*1 →
    Forall (λ entry, results !! entry.1 = Some entry.2) scores →
    let collected :=
      foldl (λ scores metric_name,
               match results !! metric_name with
               | Some score => RagasReport.dict_set scores metric_name score
               | None => scores
               end) scores metrics in
    NoDup collected.*1
    ∧ Forall (λ entry, results !! entry.1 = Some entry.2) collected
    ∧ ∀ k, k ∈ collected.*1
           ↔ k ∈ scores.*1 ∨ (k ∈ metrics ∧ is_Some (results !! k)).
Proof.
  induction metrics as [|m rest IH]; intros scores Hnd Hall; cbn [foldl].
  - split; [exact Hnd|]. split; [exact Hall|].
    intros k. rewrite elem_of_nil. tauto.
  - destruct (results !! m) as [score|] eqn:Hm.
    + destruct (IH (RagasReport.dict_set scores m score))
        as (Hnd' & Hall' & Hkeys');
        [now apply dict_set_nodup|now apply dict_set_entries|].
      split; [exact Hnd'|]. split; [exact Hall'|].
      assert (is_Some (results !! m)) as Hsome by (rewrite Hm; eauto).
      intros k. rewrite Hkeys', dict_set_keys, elem_of_cons.
      split; [intros [[->|?]|[? ?]]|intros [?|[[->|?] ?]]]; tauto.
    + destruct (IH scores Hnd Hall) as (Hnd' & Hall' & Hkeys').
      split; [exact Hnd'|]. split; [exact Hall'|].
      assert (¬ is_Some (results !! m)) as Hnone
        by (rewrite Hm; now intros [? ?]).
      intros k. rewrite Hkeys', elem_of_cons.
      split; [intros [?|[? ?]]|intros [?|[[->|?] ?]]]; tauto.
Qed.

End RagasReportProperties.

Section RagasReportSpec.

Implicit Types scores : list (string * Q).

Lemma metrics_scores_spec (metrics : list string) (results : gmap string Q) :
  NoDup (RagasReport.metrics_scores metrics results).*1
  ∧ Forall (λ entry, results !! entry.1 = Some entry.2)
           (RagasReport.metrics_scores metrics results)
  ∧ ∀ k, k ∈ (RagasReport.metrics_scores metrics results).*1
         ↔ k ∈ metrics ∧ is_Some (results !! k).
Proof.
  destruct (metrics_scores_fold results metrics [] ltac:(constructor)
              (List.Forall_nil _)) as (Hnd & Hall & Hkeys).
  split; [exact Hnd|]. split; [exact Hall|].
  intros k. unfold RagasReport.metrics_scores. rewrite Hkeys.
  cbn. rewrite elem_of_nil. tauto.
Qed.

Lemma metrics_scores_entries (metrics : list string) (results : gmap string Q)
    (k : string) (v : Q) :
  (k, v) ∈ RagasReport.metrics_scores metrics results
  ↔ k ∈ metrics ∧ results !! k = Some v.
Proof.
  destruct (metrics_scores_spec metrics results) as (_ & Hall & Hkeys).
  rewrite Forall_forall in Hall. split.
  - intros Hin. split; [|exact (Hall _ Hin)].
    apply (Hkeys k). apply list_elem_of_fmap. now exists (k, v).
  - intros [Hk Hv].
    assert (k ∈ (RagasReport.metrics_scores metrics results).*1) as Hin
      by (apply Hkeys; split; [exact Hk|now rewrite Hv]).
    apply list_elem_of_fmap in Hin as ([k' v'] & Heq & Hin).
    cbn in Heq. subst k'.
    pose proof (Hall _ Hin) as Hv'. cbn in Hv'.
    rewrite Hv in Hv'. now injection Hv' as <-.
Qed.

(** X22: [generate_ragas_report] ends at once on empty results. On
    results that are not empty but hold none of the metrics it fails on
    reading [overall_score], which was never assigned. On results that
    hold one of the metrics it gets as far as saving a report, whose
    scores are, once each, the scores of the metrics that the results
    hold. *)
Theorem generate_ragas_report_spec (metrics : list string)
    (results : gmap string Q) :
  (results = ∅ →
     RagasReport.generate_ragas_report metrics results = RagasReport.No_results)
  ∧ (results ≠ ∅ →
     (∀ m, m ∈ metrics → results !! m = None) →
     RagasReport.generate_ragas_report metrics results
     = RagasReport.Unbound_local "overall_score")
  ∧ (∀ m, m ∈ metrics → is_Some (results !! m) →
       ∃ scores (overall_score : Q) (grade : string),
         RagasReport.generate_ragas_report metrics results
         = RagasReport.Saved scores overall_score grade
         ∧ NoDup scores.*1
         ∧ ∀ k v, (k, v) ∈ scores ↔ k ∈ metrics ∧ results !! k = Some v).
Proof.
  unfold RagasReport.generate_ragas_report, RagasReport.truthy_dict.
  split; [intros ->; reflexivity|]. split.
  - intros Hne Hnone.
    apply map_size_non_empty_iff in Hne.
    assert ((Z.of_nat (size results) =? 0) = false) as ->
      by (apply Z.eqb_neq; lia).
    cbn [negb].
    assert (RagasReport.metrics_scores metrics results = []) as ->; [|reflexivity].
    destruct (RagasReport.metrics_scores metrics results) as [|[k v] rest] eqn:E;
      [reflexivity|exfalso].
    assert ((k, v) ∈ RagasReport.metrics_scores metrics results) as Hin
      by (rewrite E; constructor).
    apply metrics_scores_entries in Hin as [Hk Hv].
    rewrite (Hnone k Hk) in Hv. discriminate.
  - intros m Hm [v Hv].
    assert (results ≠ ∅) as Hne by (intros ->; now rewrite lookup_empty in Hv).
    apply map_size_non_empty_iff in Hne.
    assert ((Z.of_nat (size results) =? 0) = false) as ->
      by (apply Z.eqb_neq; lia).
    cbn [negb].
    set (scores := RagasReport.metrics_scores metrics results).
    assert ((m, v) ∈ scores) as Hin
      by (apply metrics_scores_entries; now split).
    assert (scores ≠ []) as Hscores
      by (intros E; rewrite E in Hin; now apply elem_of_nil in Hin).
    assert (Py.truthy_list scores = true) as -> by (now apply truthy_list_true).
    assert (0 < Z.of_nat (List.length scores))%Z as Hlen
      by (destruct scores; [contradiction|cbn; lia]).
    rewrite truediv_nonzero
      by (unfold Py.len_list, Qeq; cbn; lia).
    eexists scores, _, _.
    split; [reflexivity|].
    split; [apply metrics_scores_spec|].
    intros k x; apply metrics_scores_entries.
Qed.

(** X22 on results that hold one of two metrics, and on results that
    hold none. *)
Lemma generate_ragas_report_spec_witness :
  let metrics := ["faithfulness"; "answer_relevancy"] in
  let results : gmap string Q := {[ "faithfulness" := 0.8%Q ]} in
  let other : gmap string Q := {[ "latency" := 0.8%Q ]} in
  "faithfulness" ∈ metrics
  ∧ is_Some (results !! "faithfulness")
  ∧ (∃ scores (overall_score : Q) (grade : string),
        RagasReport.generate_ragas_report metrics results
        = RagasReport.Saved scores overall_score grade
        ∧ ∀ k v, (k, v) ∈ scores ↔ k ∈ metrics ∧ results !! k = Some v)
  ∧ other ≠ ∅
  ∧ RagasReport.generate_ragas_report metrics other
    = RagasReport.Unbound_local "overall_score".
Proof.
  intros metrics results other.
  assert ("faithfulness" ∈ metrics) as Hm by constructor.
  assert (is_Some (results !! "faithfulness")) as Hsome by (now eexists).
  assert (other ≠ ∅) as Hne by (apply insert_non_empty).
  split; [exact Hm|]. split; [exact Hsome|]. split; [|split; [exact Hne|]].
  - destruct (proj2 (proj2 (generate_ragas_report_spec metrics results))
                _ Hm Hsome) as (scores & overall & grade & Hsaved & _ & Hb).
    exists scores, overall, grade. split; [exact Hsaved|exact Hb].
  - apply (proj1 (proj2 (generate_ragas_report_spec metrics other)) Hne).
    intros m Hin. unfold metrics in Hin.
    repeat (apply elem_of_cons in Hin as [->|Hin]);
      [reflexivity|reflexivity|now apply elem_of_nil in Hin].
Defined.

End RagasReportSpec.

(** ** Where the scoring raises *)

Section ScoringDomain.

(** X23: [calculate_custom_metrics] raises exactly when a non-empty
    answer meets a ground truth that is not empty and holds white space
    only; on every other input it returns. *)
Theorem scoring_raises_only_on_blank_ground_truth
    (question answer ground_truth : string) (contexts : list string)
    (response_time : Q) :
  (answer ≠ "" ∧ ground_truth ≠ "" ∧ Spec.blank ground_truth = true
   → Enhanced.calculate_custom_metrics question answer ground_truth contexts
       response_time = Raise ZeroDivisionError)
  ∧ (¬ (answer ≠ "" ∧ ground_truth ≠ "" ∧ Spec.blank ground_truth = true)
     → returns (Enhanced.calculate_custom_metrics question answer
                  ground_truth contexts response_time)).
Proof.
  split.
  - intros (Ha & Hg & Hblank).
    apply calculate_custom_metrics_raises; try assumption.
    now apply words_empty_blank.
  - apply calculate_custom_metrics_returns_iff.
Qed.

(** X23 on a ground truth of one tab and one space, and on an empty
    one. *)
Lemma scoring_raises_only_on_blank_ground_truth_witness :
  let blank := String (ascii_of_nat 9) " " in
  Enhanced.calculate_custom_metrics "q" "Up to $250,000" blank [] 3
  = Raise ZeroDivisionError
  ∧ returns (Enhanced.calculate_custom_metrics "q" "Up to $250,000" "" [] 3).
Proof.
  intros blank. split.
  - apply (proj1 (scoring_raises_only_on_blank_ground_truth
                    "q" "Up to $250,000" blank [] 3)).
    repeat split; discriminate.
  - apply (proj2 (scoring_raises_only_on_blank_ground_truth
                    "q" "Up to $250,000" "" [] 3)).
    intros (_ & Hg & _). now apply Hg.
Defined.

End ScoringDomain.
